(** * graceful: shutdown coordination of an HTTP server

    Shallow embedding of [graceful/graceful.go].  The coordinator
    ([GracefulServer]) is a record; its methods run in a small monad that
    threads the coordinator (the receiver [svr] is a pointer, so methods
    mutate it in place) together with a trace of the calls made to the
    outside world.  The outside world itself -- [net.Listen], the
    [http.Server] methods and the clock -- is not part of the package: it
    is a parameter ([Env]) whose answers may depend on everything that
    happened before.  The signals the process is sent, and the channels
    [os/signal] relays them to, are part of the state. *)

From Stdlib Require Import ZArith String List Lia.
Import ListNotations.

Open Scope string_scope.
Open Scope list_scope.
Open Scope Z_scope.

Module Graceful.

(** ** Data *)

(** [time.Duration] is an [int64] count of nanoseconds. *)
Definition Duration := Z.

Definition wrap64 (z : Z) : Z := (z + 2 ^ 63) mod 2 ^ 64 - 2 ^ 63.

Definition Nanosecond : Duration := 1.
Definition Microsecond : Duration := wrap64 (1000 * Nanosecond).
Definition Millisecond : Duration := wrap64 (1000 * Microsecond).
Definition Second : Duration := wrap64 (1000 * Millisecond).

(** An instant, in nanoseconds on the clock of the environment. *)
Definition Time := Z.

(** [context.WithTimeout(context.Background(), d)]: a context that
    carries the deadline [time.Now().Add(d)] and nothing else. *)
Record Context := mkContext { deadline : Time }.

(** [os.Signal] values the process can be sent. *)
Inductive Signal := SIGHUP | SIGINT | SIGQUIT | SIGTERM | SIGUSR1.

Definition os_Interrupt : Signal := SIGINT.

Definition Signal_eqb (a b : Signal) : bool :=
  match a, b with
  | SIGHUP, SIGHUP | SIGINT, SIGINT | SIGQUIT, SIGQUIT
  | SIGTERM, SIGTERM | SIGUSR1, SIGUSR1 => true
  | _, _ => false
  end.

(** Go [error] values.  [DeadlineExceeded] is [context.DeadlineExceeded],
    [ErrServerClosed] is [http.ErrServerClosed], [errorString s] is what
    [errors.New(s)] builds and [OpError s] stands for the errors of the
    transport ([*net.OpError] and the like).  A nil [error] is [None]. *)
Inductive error :=
| DeadlineExceeded
| ErrServerClosed
| errorString (s : string)
| OpError (s : string).

(** [shutErr == context.DeadlineExceeded] *)
Definition is_DeadlineExceeded (e : option error) : bool :=
  match e with
  | Some DeadlineExceeded => true
  | _ => false
  end.

(** The request handler and the logging sink are opaque to the package:
    a handle is all it ever holds of them. *)
Record Handler := mkHandler { handler_id : nat }.
Record LogEntry := mkLogEntry { entry_id : nat }.

(** [http.Server{Handler: handler}] *)
Record http_Server := mkServer { srv_Handler : Handler }.

(** A [net.Listener] as the package sees it: a handle and the string
    [l.Addr().String()] of its resolved local address. *)
Record Listener := mkListener { lis_fd : nat; Addr_String : string }.

Record GracefulServer := mkGracefulServer {
  server : http_Server;
  listener : option Listener;
  log : LogEntry;
  URL : string;
  ShutdownTimeout : Duration
}.

(** Package-level variables.  [DefaultShutdownTimeout] is declared with
    [var], so it is part of the state of the package; [pkg_init] is the
    state after package initialisation. *)
Record Package := mkPackage { DefaultShutdownTimeout : Duration }.

Definition pkg_init : Package :=
  {| DefaultShutdownTimeout := wrap64 (Second * 60) |}.

(** ** Calls to the outside world *)

Inductive Level := InfoLevel | WarnLevel.

(** Arguments handed to a [printf]-style logging call.  [ArgDuration d]
    is the string [d.String()], which the [time] package computes; the
    embedding keeps the duration it is computed from. *)
Inductive fmt_arg :=
| ArgSignal (s : Signal)
| ArgDuration (d : Duration).

(** What the package does to the outside world, one constructor per call
    site of the source. *)
Inductive event :=
| NetListen (network addr : string)
| Go_listenForShutdownSignal
| ServerServe (s : http_Server) (l : option Listener)
| SignalNotify (sigs : list Signal)
| ChanRecv (sig : Signal)
| Logf (sink : LogEntry) (lvl : Level) (err : option error)
       (format : string) (args : list fmt_arg)
| ServerShutdown (s : http_Server) (ctx : Context)
| ContextCancel (ctx : Context)
| ServerClose (s : http_Server).

(** How a call ends: it returns, it never returns (a goroutine parked on
    a channel, a serve loop that is never stopped), it panics, or the
    process is ended by a signal while the call waits. *)
Inductive outcome (A : Type) :=
| Returns (a : A)
| Blocks
| Panics (v : string)
| Exits (sig : Signal).
Arguments Returns {A} a.
Arguments Blocks {A}.
Arguments Panics {A} v.
Arguments Exits {A} sig.

(** The outside world.  Each answer may depend on the history of calls
    made so far (oldest first, the call that is answered last).  [net_Listen] answers with a listener or
    with an error, never both; [server_Serve] is handed the listener
    field as it is, [None] being the nil interface. *)
Record Env := mkEnv {
  net_Listen : list event -> string -> string -> Listener + error;
  time_Now : list event -> Time;
  server_Serve :
    list event -> http_Server -> option Listener -> outcome (option error);
  server_Shutdown : list event -> http_Server -> Context -> option error;
  server_Close : list event -> http_Server -> option error
}.

(** ** The monad of the methods *)

(** A channel of signals made by a watcher: its capacity, the signals
    [signal.Notify] subscribed it to, the signals it holds, and whether
    its watcher is parked on it by the scheduler ([ParkWatcher] below).
    Every channel is a watcher's own: a signal is handed to each
    subscribed channel, one copy each. *)
Record Channel := mkChannel {
  chan_cap : nat;
  chan_subs : list Signal;
  chan_buf : list Signal;
  chan_parked : bool
}.

(** The coordinator the receiver points to, the history of calls, the
    channels the watchers made (in the order they were made; a channel
    stays subscribed when its watcher is over, nothing calls
    [signal.Stop]) and the signals the process is still to be sent, in
    order. *)
Record State := mkState {
  svr : GracefulServer;
  trace : list event;
  notify : list Channel;
  incoming : list Signal
}.

Definition M (A : Type) : Type := State -> outcome A * State.

Definition ret {A} (a : A) : M A := fun st => (Returns a, st).

Definition mbind {A B} (m : M A) (k : A -> M B) : M B :=
  fun st =>
    match m st with
    | (Returns a, st') => k a st'
    | (Blocks, st') => (Blocks, st')
    | (Panics v, st') => (Panics v, st')
    | (Exits sig, st') => (Exits sig, st')
    end.

Notation "x <- m ;; k" := (mbind m (fun x => k))
  (at level 61, m at next level, right associativity).
Notation "m ;;; k" := (mbind m (fun _ => k))
  (at level 61, right associativity).

Definition get_svr : M GracefulServer := fun st => (Returns (svr st), st).

Definition put_svr (g : GracefulServer) : M unit :=
  fun st =>
    (Returns tt,
     {| svr := g; trace := trace st;
        notify := notify st; incoming := incoming st |}).

Definition emit (e : event) : M unit :=
  fun st =>
    (Returns tt,
     {| svr := svr st; trace := trace st ++ [e];
        notify := notify st; incoming := incoming st |}).

(** Ask the environment, with the history so far; every call is recorded
    with [emit] before it is answered. *)
Definition ask {A} (f : list event -> A) : M A :=
  fun st => (Returns (f (trace st)), st).

Definition lift {A} (f : list event -> outcome A) : M A :=
  fun st => (f (trace st), st).

(** [svr.URL = u] and [svr.listener = l] *)
Definition set_URL (u : string) : M unit :=
  g <- get_svr ;;
  put_svr {| server := server g; listener := listener g; log := log g;
             URL := u; ShutdownTimeout := ShutdownTimeout g |}.

Definition set_listener (l : option Listener) : M unit :=
  g <- get_svr ;;
  put_svr {| server := server g; listener := l; log := log g;
             URL := URL g; ShutdownTimeout := ShutdownTimeout g |}.

(** [svr.ShutdownTimeout = d], the assignment a caller writes to tune the
    exported field. *)
Definition set_ShutdownTimeout (d : Duration) : M unit :=
  g <- get_svr ;;
  put_svr {| server := server g; listener := listener g; log := log g;
             URL := URL g; ShutdownTimeout := d |}.

(** [log.Infof(format, args...)] and
    [log.WithError(err).Warnf(format, args...)] *)
Definition Infof (sink : LogEntry) (format : string) (args : list fmt_arg)
  : M unit :=
  emit (Logf sink InfoLevel None format args).

Definition WithError_Warnf (sink : LogEntry) (err : option error)
    (format : string) (args : list fmt_arg) : M unit :=
  emit (Logf sink WarnLevel err format args).

(** ** Signals *)

Definition relayed (subs : list Signal) (s : Signal) : bool :=
  existsb (Signal_eqb s) subs.

(** What the Go runtime does with a signal that no channel is subscribed
    to: SIGHUP, SIGINT and SIGTERM make the program exit, SIGQUIT makes it
    exit with a stack dump, and the other signals are caught and nothing
    is done. *)
Definition ends_process (s : Signal) : bool :=
  match s with
  | SIGHUP | SIGINT | SIGQUIT | SIGTERM => true
  | SIGUSR1 => false
  end.

(** The first signal still to come that is relayed to a channel
    subscribed to [subs], and what comes after it, as long as the
    process lives to see it: a signal ahead of it that is not relayed and
    ends the process leaves nothing to receive. *)
Fixpoint next_relayed (subs incoming : list Signal)
  : option (Signal * list Signal) :=
  match incoming with
  | [] => None
  | s :: rest =>
      if relayed subs s then Some (s, rest)
      else if ends_process s then None
      else next_relayed subs rest
  end.

Definition new_chan (cap : nat) : Channel :=
  {| chan_cap := cap; chan_subs := []; chan_buf := [];
     chan_parked := false |}.

Fixpoint update_chan (c : nat) (f : Channel -> Channel)
    (chans : list Channel) : list Channel :=
  match chans, c with
  | [], _ => []
  | ch :: chans', O => f ch :: chans'
  | ch :: chans', S c' => ch :: update_chan c' f chans'
  end.

Definition subscribe (sigs : list Signal) (ch : Channel) : Channel :=
  {| chan_cap := chan_cap ch; chan_subs := chan_subs ch ++ sigs;
     chan_buf := chan_buf ch; chan_parked := chan_parked ch |}.

Definition set_parked (b : bool) (ch : Channel) : Channel :=
  {| chan_cap := chan_cap ch; chan_subs := chan_subs ch;
     chan_buf := chan_buf ch; chan_parked := b |}.

(** Some channel is subscribed to [s]. *)
Definition subscribed (chans : list Channel) (s : Signal) : bool :=
  existsb (fun ch => relayed (chan_subs ch) s) chans.

(** [os/signal] sends without blocking: a subscribed channel gets its
    copy of [s] if it has room, and that copy is dropped if not. *)
Definition offer (s : Signal) (ch : Channel) : Channel :=
  if (relayed (chan_subs ch) s &&
      (length (chan_buf ch) <? chan_cap ch)%nat)%bool
  then {| chan_cap := chan_cap ch; chan_subs := chan_subs ch;
          chan_buf := chan_buf ch ++ [s]; chan_parked := chan_parked ch |}
  else ch.

Definition relay (s : Signal) (chans : list Channel) : list Channel :=
  map (offer s) chans.

(** Take the signal channel [c] holds, if it holds one; its watcher is
    parked no more. *)
Definition take (c : nat) (chans : list Channel)
  : option (Signal * list Channel) :=
  match nth_error chans c with
  | Some ch =>
      match chan_buf ch with
      | s :: buf =>
          Some (s, update_chan c
                     (fun _ => {| chan_cap := chan_cap ch;
                                  chan_subs := chan_subs ch;
                                  chan_buf := buf;
                                  chan_parked := false |}) chans)
      | [] => None
      end
  | None => None
  end.

(** What a goroutine that receives on channel [c] lives to see. *)
Inductive arrival :=
| Received (s : Signal) (chans : list Channel) (rest : list Signal)
| ProcessEnds (s : Signal) (chans : list Channel) (rest : list Signal)
| NeverComes (chans : list Channel).

(** While the goroutine waits the signals come in, one after the other:
    each is relayed to the channels subscribed to it, or, when none is,
    ends the process or is dropped.  The wait is over when [c] holds a
    signal. *)
Fixpoint await (c : nat) (chans : list Channel) (incoming : list Signal)
  : arrival :=
  match take c chans with
  | Some (s, chans') => Received s chans' incoming
  | None =>
      match incoming with
      | [] => NeverComes chans
      | s :: rest =>
          if subscribed chans s then await c (relay s chans) rest
          else if ends_process s then ProcessEnds s chans rest
          else await c chans rest
      end
  end.

Definition arrival_chans (a : arrival) : list Channel :=
  match a with
  | Received _ chans _ | ProcessEnds _ chans _ | NeverComes chans => chans
  end.

(** [c := make(chan os.Signal, cap)]: a new channel, subscribed to
    nothing yet. *)
Definition make_chan (cap : nat) : M nat :=
  fun st =>
    (Returns (length (notify st)),
     {| svr := svr st; trace := trace st;
        notify := notify st ++ [new_chan cap]; incoming := incoming st |}).

(** [signal.Notify(c, sigs...)] *)
Definition signal_Notify (c : nat) (sigs : list Signal) : M unit :=
  fun st =>
    (Returns tt,
     {| svr := svr st; trace := trace st ++ [SignalNotify sigs];
        notify := update_chan c (subscribe sigs) (notify st);
        incoming := incoming st |}).

(** [<-c]: parks the goroutine until its channel holds a signal. *)
Definition chan_recv (c : nat) : M Signal :=
  fun st =>
    match await c (notify st) (incoming st) with
    | Received s chans rest =>
        (Returns s,
         {| svr := svr st; trace := trace st ++ [ChanRecv s];
            notify := chans; incoming := rest |})
    | ProcessEnds s chans rest =>
        (Exits s,
         {| svr := svr st; trace := trace st;
            notify := chans; incoming := rest |})
    | NeverComes chans =>
        (Blocks,
         {| svr := svr st; trace := trace st;
            notify := chans; incoming := [] |})
    end.

(** The scheduler takes the goroutine off the processor at its receive. *)
Definition park (c : nat) : M unit :=
  fun st =>
    (Returns tt,
     {| svr := svr st; trace := trace st;
        notify := update_chan c (set_parked true) (notify st);
        incoming := incoming st |}).

Definition parked_on (c : nat) (chans : list Channel) : bool :=
  match nth_error chans c with
  | Some ch => chan_parked ch
  | None => false
  end.

(** ** The package *)

(** [NewGracefulServer]: [URL] is left at its zero value. *)
Definition NewGracefulServer (pkg : Package) (handler : Handler)
    (lg : LogEntry) : GracefulServer :=
  {| server := {| srv_Handler := handler |};
     log := lg;
     listener := None;
     URL := "";
     ShutdownTimeout := DefaultShutdownTimeout pkg |}.

Section Methods.

Variable env : Env.

(** [context.WithTimeout(context.Background(), d)] *)
Definition context_WithTimeout (d : Duration) : M Context :=
  now <- ask (time_Now env) ;;
  ret {| deadline := now + d |}.

Definition Bind (addr : string) : M (option error) :=
  emit (NetListen "tcp" addr) ;;;
  r <- ask (fun h => net_Listen env h "tcp" addr) ;;
  match r with
  | inr err => ret (Some err)
  | inl l =>
      set_URL ("http://" ++ Addr_String l) ;;;
      set_listener (Some l) ;;;
      ret None
  end.

Definition Close : M (option error) :=
  g <- get_svr ;;
  ctx <- context_WithTimeout (ShutdownTimeout g) ;;
  g <- get_svr ;;
  Infof (log g) "Triggering shutdown, in at most %s "
        [ArgDuration (ShutdownTimeout g)] ;;;
  g <- get_svr ;;
  emit (ServerShutdown (server g) ctx) ;;;
  r <- ask (fun h => server_Shutdown env h (server g) ctx) ;;
  emit (ContextCancel ctx) ;;;
  ret r.

Definition listenForShutdownSignal : M unit :=
  c <- make_chan 1 ;;
  signal_Notify c [os_Interrupt; SIGTERM; SIGINT] ;;;
  sig <- chan_recv c ;;
  g <- get_svr ;;
  Infof (log g) "Triggering shutdown from signal %s" [ArgSignal sig] ;;;
  shutErr <- Close ;;
  shutErr <-
    (if is_DeadlineExceeded shutErr then
       g <- get_svr ;;
       WithError_Warnf (log g) shutErr "Forcing a shutdown after waiting %s"
                       [ArgDuration (ShutdownTimeout g)] ;;;
       g <- get_svr ;;
       emit (ServerClose (server g)) ;;;
       r <- ask (fun h => server_Close env h (server g)) ;;
       ret r
     else ret shutErr) ;;
  match shutErr with
  | Some _ =>
      g <- get_svr ;;
      WithError_Warnf (log g) shutErr "Error while shutting down" []
  | None => ret tt
  end.

(** The two halves of [listenForShutdownSignal] a scheduler may run
    apart: up to the receive, where the goroutine is parked on its
    channel, and from the receive on. *)
Definition watcher_parks : M nat :=
  c <- make_chan 1 ;;
  signal_Notify c [os_Interrupt; SIGTERM; SIGINT] ;;;
  park c ;;;
  ret c.

Definition watcher_wakes (c : nat) : M unit :=
  sig <- chan_recv c ;;
  g <- get_svr ;;
  Infof (log g) "Triggering shutdown from signal %s" [ArgSignal sig] ;;;
  shutErr <- Close ;;
  shutErr <-
    (if is_DeadlineExceeded shutErr then
       g <- get_svr ;;
       WithError_Warnf (log g) shutErr "Forcing a shutdown after waiting %s"
                       [ArgDuration (ShutdownTimeout g)] ;;;
       g <- get_svr ;;
       emit (ServerClose (server g)) ;;;
       r <- ask (fun h => server_Close env h (server g)) ;;
       ret r
     else ret shutErr) ;;
  match shutErr with
  | Some _ =>
      g <- get_svr ;;
      WithError_Warnf (log g) shutErr "Error while shutting down" []
  | None => ret tt
  end.

(** The [go] statement starts the watcher as a goroutine of its own; the
    caller goes on at once.  What the goroutine does is
    [listenForShutdownSignal], run on its own. *)
Definition Listen : M (option error) :=
  emit Go_listenForShutdownSignal ;;;
  g <- get_svr ;;
  emit (ServerServe (server g) (listener g)) ;;;
  lift (fun h => server_Serve env h (server g) (listener g)).

Definition ListenAndServe (addr : string) : M (option error) :=
  g <- get_svr ;;
  match listener g with
  | Some _ =>
      ret (Some (errorString
                   "The listener has already started, don't call Bind first"))
  | None =>
      err <- Bind addr ;;
      match err with
      | Some e => ret (Some e)
      | None => Listen
      end
  end.

End Methods.

(** ** Reading a trace *)

Definition is_ServerClose (e : event) : bool :=
  match e with ServerClose _ => true | _ => false end.

Definition is_ServerShutdown (e : event) : bool :=
  match e with ServerShutdown _ _ => true | _ => false end.

Definition is_ServerServe (e : event) : bool :=
  match e with ServerServe _ _ => true | _ => false end.

Definition is_ChanRecv (e : event) : bool :=
  match e with ChanRecv _ => true | _ => false end.

(** The hard close of the server was performed. *)
Definition escalated (t : list event) : bool := existsb is_ServerClose t.

Definition count (p : event -> bool) (t : list event) : nat :=
  length (filter p t).

(** The network address of a URL of the form [http://host:port]. *)
Fixpoint trim_prefix (p s : string) : option string :=
  match p with
  | EmptyString => Some s
  | String a p' =>
      match s with
      | EmptyString => None
      | String b s' => if Ascii.eqb a b then trim_prefix p' s' else None
      end
  end.

Definition URL_address (u : string) : option string :=
  trim_prefix "http://" u.

(** The error [ListenAndServe] answers a coordinator that is bound. *)
Definition AlreadyBoundError : error :=
  errorString "The listener has already started, don't call Bind first".

(** The signals the watcher subscribes its channel to. *)
Definition watched : list Signal := [os_Interrupt; SIGTERM; SIGINT].

(** ** The contract of Shutdown *)

(** Modelled from the spec: what the server has in hand when a shutdown
    begins.  [http.Server] belongs to [net/http], not to the package; the
    spec speaks of in-flight requests that complete or not before a
    deadline, and of transport-level errors.  [in_flight] gives, for each
    request in flight, the instant it completes, if it ever does;
    [transport] the error of the transport, if there is one. *)
Record Drain := mkDrain {
  in_flight : list (option Time);
  transport : option string
}.

Definition unfinished (deadline : Time) (r : option Time) : bool :=
  match r with
  | Some t => Z.leb deadline t
  | None => true
  end.

(** Work is still outstanding when the deadline elapses. *)
Definition outstanding (d : Drain) (deadline : Time) : bool :=
  existsb (unfinished deadline) (in_flight d).

(** Modelled from the spec: [http.Server.Shutdown], which is not in the
    package.  The spec has it stop accepting connections, wait for the
    in-flight requests, and return once all are complete or the deadline
    elapses, whichever is first: [DeadlineExceeded] if the deadline
    elapsed with work still outstanding, nil on clean completion, any
    other transport-level error as it is. *)
Definition Shutdown_spec (d : Drain) (ctx : Context) : option error :=
  if outstanding d (deadline ctx) then Some DeadlineExceeded
  else match transport d with
       | Some msg => Some (OpError msg)
       | None => None
       end.

(** An environment whose server shuts down as the spec says, [drain]
    telling what the server has in hand at each call. *)
Definition obeys_Shutdown_spec (env : Env)
    (drain : list event -> http_Server -> Drain) : Prop :=
  forall h s ctx, server_Shutdown env h s ctx = Shutdown_spec (drain h s) ctx.

(** ** A sample world

    Port 0 of the loopback interface can be bound and resolves to port
    49152, every other address is in use; in-flight requests need five
    seconds to finish; [Serve] dereferences its listener. *)
Definition sample_Listen (h : list event) (network addr : string)
  : Listener + error :=
  if String.eqb addr "127.0.0.1:0"
  then inl {| lis_fd := (2 + length h)%nat;
              Addr_String := "127.0.0.1:49152" |}
  else inr (OpError "listen tcp: bind: address already in use").

Definition sample_drain (h : list event) (s : http_Server) : Drain :=
  {| in_flight := [Some (1000 * Z.of_nat (length h) + 5 * Second)];
     transport := None |}.

Definition sample_env : Env :=
  {| net_Listen := sample_Listen;
     time_Now := fun h => 1000 * Z.of_nat (length h);
     server_Serve := fun _ _ l =>
       match l with
       | None => Panics "invalid memory address or nil pointer dereference"
       | Some _ => Returns (Some ErrServerClosed)
       end;
     server_Shutdown := fun h s ctx => Shutdown_spec (sample_drain h s) ctx;
     server_Close := fun _ _ => Some (OpError "close tcp: broken pipe") |}.

Definition sample_svr : GracefulServer :=
  NewGracefulServer pkg_init {| handler_id := 1 |} {| entry_id := 2 |}.

Definition sample_state (incoming : list Signal) : State :=
  {| svr := sample_svr; trace := []; notify := []; incoming := incoming |}.

Definition with_timeout (d : Duration) (st : State) : State :=
  snd (set_ShutdownTimeout d st).

Definition sample_listener : Listener :=
  {| lis_fd := 3; Addr_String := "127.0.0.1:49152" |}.

Definition bound_state : State :=
  snd (Bind sample_env "127.0.0.1:0" (sample_state [])).

(** What the environment answers a call made in state [st]: the history
    it sees ends with the call. *)
Definition listen_answer (env : Env) (st : State) (addr : string)
  : Listener + error :=
  net_Listen env (trace st ++ [NetListen "tcp" addr]) "tcp" addr.

(** The context [Close] builds in state [st], the line it logs and the
    answer of [Shutdown] to it. *)
Definition Close_ctx (env : Env) (st : State) : Context :=
  {| deadline := time_Now env (trace st) + ShutdownTimeout (svr st) |}.

Definition Close_log (st : State) : event :=
  Logf (log (svr st)) InfoLevel None "Triggering shutdown, in at most %s "
       [ArgDuration (ShutdownTimeout (svr st))].

Definition Close_events (env : Env) (st : State) : list event :=
  [Close_log st;
   ServerShutdown (server (svr st)) (Close_ctx env st);
   ContextCancel (Close_ctx env st)].

Definition shutdown_answer (env : Env) (st : State) : option error :=
  server_Shutdown env
    (trace st ++ [Close_log st;
                  ServerShutdown (server (svr st)) (Close_ctx env st)])
    (server (svr st)) (Close_ctx env st).

(** The channels once a watcher started in [st] has made its channel and
    subscribed it. *)
Definition watcher_chans (st : State) : list Channel :=
  update_chan (length (notify st)) (subscribe watched)
              (notify st ++ [new_chan 1]).

(** What the server has in hand when [Close], called in state [st],
    calls [Shutdown]. *)
Definition Close_drain (env : Env)
    (drain : list event -> http_Server -> Drain) (st : State) : Drain :=
  drain (trace st ++ [Close_log st;
                      ServerShutdown (server (svr st)) (Close_ctx env st)])
        (server (svr st)).

(** The state in which the watcher calls [Close], once it has received
    [sig] and [rest] is still to come. *)
Definition at_Close (st : State) (sig : Signal) (rest : list Signal)
  : State :=
  {| svr := svr st;
     trace := trace st ++
              [SignalNotify watched; ChanRecv sig;
               Logf (log (svr st)) InfoLevel None
                    "Triggering shutdown from signal %s" [ArgSignal sig]];
     notify := arrival_chans
                 (await (length (notify st)) (watcher_chans st)
                        (incoming st));
     incoming := rest |}.

(** The warnings of the watcher. *)
Definition Forcing_log (g : GracefulServer) (err : option error) : event :=
  Logf (log g) WarnLevel err "Forcing a shutdown after waiting %s"
       [ArgDuration (ShutdownTimeout g)].

Definition Error_log (g : GracefulServer) (err : option error) : event :=
  Logf (log g) WarnLevel err "Error while shutting down" [].

(** What the watcher does once [Close] has returned [r], the history
    being [h]. *)
Definition after_Close (env : Env) (g : GracefulServer) (h : list event)
    (r : option error) : list event :=
  if is_DeadlineExceeded r then
    Forcing_log g r :: ServerClose (server g) ::
    match server_Close env (h ++ [Forcing_log g r; ServerClose (server g)])
                       (server g) with
    | Some e => [Error_log g (Some e)]
    | None => []
    end
  else
    match r with
    | Some e => [Error_log g (Some e)]
    | None => []
    end.

(** The events of a run of the watcher that receives [sig]. *)
Definition watcher_events (env : Env) (st : State) (sig : Signal)
    (rest : list Signal) : list event :=
  [SignalNotify watched; ChanRecv sig;
   Logf (log (svr st)) InfoLevel None
        "Triggering shutdown from signal %s" [ArgSignal sig]] ++
  Close_events env (at_Close st sig rest) ++
  after_Close env (svr st)
    (trace (at_Close st sig rest) ++ Close_events env (at_Close st sig rest))
    (shutdown_answer env (at_Close st sig rest)).

(** A coordinator tuned to wait one second, in a process that is sent a
    user signal, then a termination, then an interrupt. *)
Definition hasty_state : State :=
  with_timeout Second (sample_state [SIGUSR1; SIGTERM; SIGINT]).

(** ** Callers

    What a program does with a coordinator: it calls the methods, starts
    the watcher (through [Listen]) and assigns the exported timeout.  The
    coordinator lives on whatever a call does, so each call runs from the
    state the one before left.  A watcher either runs from start to end
    in one piece ([RunWatcher]), or is parked at its receive
    ([ParkWatcher]) and goes on later, when the scheduler wakes it on its
    channel ([WakeWatcher]); several watchers may be parked at once.
    Where a call panics or a signal ends the process, the history of a
    real process stops; the calls after it only make this one longer. *)
Inductive call :=
| CallBind (addr : string)
| CallListen
| CallListenAndServe (addr : string)
| CallClose
| RunWatcher
| AssignShutdownTimeout (d : Duration)
| ParkWatcher
| WakeWatcher (c : nat).

Definition step (env : Env) (c : call) (st : State) : State :=
  match c with
  | CallBind addr => snd (Bind env addr st)
  | CallListen => snd (Listen env st)
  | CallListenAndServe addr => snd (ListenAndServe env addr st)
  | CallClose => snd (Close env st)
  | RunWatcher => snd (listenForShutdownSignal env st)
  | AssignShutdownTimeout d => snd (set_ShutdownTimeout d st)
  | ParkWatcher => snd (watcher_parks st)
  | WakeWatcher c =>
      if parked_on c (notify st) then snd (watcher_wakes env c st) else st
  end.

Fixpoint drive (env : Env) (cs : list call) (st : State) : State :=
  match cs with
  | [] => st
  | c :: cs' => drive env cs' (step env c st)
  end.

(** The timeout a caller finds after the calls [cs]: the last one
    assigned, if any. *)
Definition assigned_timeout (cs : list call) (d0 : Duration) : Duration :=
  fold_left (fun d c =>
               match c with
               | AssignShutdownTimeout d' => d'
               | _ => d
               end) cs d0.

(** The URL says where the listener is bound, and is empty as long as
    there is none. *)
Definition URL_matches_listener (g : GracefulServer) : Prop :=
  match listener g with
  | None => URL g = ""
  | Some l => URL g = ("http://" ++ Addr_String l)%string
  end.

(** The start of a process: a new coordinator, nothing called yet. *)
Definition fresh_state (pkg : Package) (handler : Handler) (lg : LogEntry)
    (sigs : list Signal) : State :=
  {| svr := NewGracefulServer pkg handler lg; trace := [];
     notify := []; incoming := sigs |}.

Definition is_ContextCancel (e : event) : bool :=
  match e with ContextCancel _ => true | _ => false end.

Definition is_Go (e : event) : bool :=
  match e with Go_listenForShutdownSignal => true | _ => false end.

Definition is_Error_log (e : event) : bool :=
  match e with
  | Logf _ WarnLevel _ format _ =>
      String.eqb format "Error while shutting down"
  | _ => false
  end.

Definition is_CallBind (c : call) : bool :=
  match c with CallBind _ => true | _ => false end.

(** A watcher runs past its receive. *)
Definition is_RunWatcher (c : call) : bool :=
  match c with RunWatcher | WakeWatcher _ => true | _ => false end.

Definition is_CallListen (c : call) : bool :=
  match c with CallListen => true | _ => false end.

(** [Serve] was called with the nil listener. *)
Definition serves_nil (e : event) : bool :=
  match e with ServerServe _ None => true | _ => false end.

(** The same state, with other signals to come. *)
Definition with_incoming (sigs : list Signal) (st : State) : State :=
  {| svr := svr st; trace := trace st;
     notify := notify st; incoming := sigs |}.

(** The history the hard close of the watcher is answered with, and the
    answer. *)
Definition hard_close_history (env : Env) (st : State) (sig : Signal)
    (rest : list Signal) : list event :=
  trace (at_Close st sig rest) ++
  Close_events env (at_Close st sig rest) ++
  [Forcing_log (svr st) (Some DeadlineExceeded);
   ServerClose (server (svr st))].

Definition hard_close_answer (env : Env) (st : State) (sig : Signal)
    (rest : list Signal) : option error :=
  server_Close env (hard_close_history env st sig rest) (server (svr st)).

(** The state [Bind] leaves when [net.Listen] gave [l]. *)
Definition after_Bind (st : State) (addr : string) (l : Listener) : State :=
  {| svr := {| server := server (svr st); listener := Some l;
               log := log (svr st);
               URL := ("http://" ++ Addr_String l)%string;
               ShutdownTimeout := ShutdownTimeout (svr st) |};
     trace := trace st ++ [NetListen "tcp" addr];
     notify := notify st; incoming := incoming st |}.

(** Channel [c] is a watcher's, and holds nothing yet. *)
Definition waits_on (c : nat) (chans : list Channel) : Prop :=
  exists p,
    nth_error chans c =
      Some {| chan_cap := 1; chan_subs := watched; chan_buf := [];
              chan_parked := p |}.

(** The state a watcher started in [st] is in at its receive. *)
Definition subscribed_state (st : State) : State :=
  {| svr := svr st; trace := trace st ++ [SignalNotify watched];
     notify := watcher_chans st; incoming := incoming st |}.

(** The state in which a watcher woken in [st] calls [Close], once its
    channel has handed it [sig]. *)
Definition resumed (st : State) (sig : Signal) (chans : list Channel)
    (rest : list Signal) : State :=
  {| svr := svr st;
     trace := trace st ++
              [ChanRecv sig;
               Logf (log (svr st)) InfoLevel None
                    "Triggering shutdown from signal %s" [ArgSignal sig]];
     notify := chans;
     incoming := rest |}.

(** What a watcher does from [Close] on, called in state [st]. *)
Definition shutdown_events (env : Env) (st : State) : list event :=
  Close_events env st ++
  after_Close env (svr st) (trace st ++ Close_events env st)
              (shutdown_answer env st).

(** ** Running the methods *)

Ltac exec :=
  cbv [Bind Close Listen ListenAndServe listenForShutdownSignal
       context_WithTimeout mbind ret emit ask lift get_svr put_svr
       set_URL set_listener set_ShutdownTimeout Infof WithError_Warnf
       signal_Notify make_chan];
  cbn [svr trace notify incoming fst snd
       server listener log URL ShutdownTimeout app].

(** Traces grow at the end: bring them back to [initial ++ added]. *)
Ltac norm := rewrite <- ?app_assoc; cbn [app].

Ltac settle :=
  repeat progress
    (cbn [svr trace notify incoming server listener log URL
          ShutdownTimeout app];
     rewrite <- ?app_assoc);
  try reflexivity.

(** The default is sixty seconds, in nanoseconds. *)
Example DefaultShutdownTimeout_init :
  DefaultShutdownTimeout pkg_init = 60000000000.
Proof. reflexivity. Qed.

(** With sixty seconds to drain, the sample server (which needs five)
    shuts down cleanly and the watcher logs no warning. *)
Example watcher_clean_shutdown :
  listenForShutdownSignal sample_env (sample_state [SIGUSR1; SIGINT; SIGINT])
  = (Returns tt,
     {| svr := sample_svr;
        trace :=
          [SignalNotify [SIGINT; SIGTERM; SIGINT];
           ChanRecv SIGINT;
           Logf {| entry_id := 2 |} InfoLevel None
                "Triggering shutdown from signal %s" [ArgSignal SIGINT];
           Logf {| entry_id := 2 |} InfoLevel None
                "Triggering shutdown, in at most %s "
                [ArgDuration 60000000000];
           ServerShutdown (server sample_svr) {| deadline := 60000003000 |};
           ContextCancel {| deadline := 60000003000 |}];
        notify := [{| chan_cap := 1; chan_subs := [SIGINT; SIGTERM; SIGINT];
                      chan_buf := []; chan_parked := false |}];
        incoming := [SIGINT] |}).
Proof. reflexivity. Qed.

(** With one second the drain times out: the watcher forces the close
    and logs the error of the forced close. *)
Example watcher_forced_shutdown :
  trace (snd (listenForShutdownSignal sample_env hasty_state))
  = [SignalNotify [SIGINT; SIGTERM; SIGINT];
     ChanRecv SIGTERM;
     Logf {| entry_id := 2 |} InfoLevel None
          "Triggering shutdown from signal %s" [ArgSignal SIGTERM];
     Logf {| entry_id := 2 |} InfoLevel None
          "Triggering shutdown, in at most %s " [ArgDuration 1000000000];
     ServerShutdown (server sample_svr) {| deadline := 1000003000 |};
     ContextCancel {| deadline := 1000003000 |};
     Logf {| entry_id := 2 |} WarnLevel (Some DeadlineExceeded)
          "Forcing a shutdown after waiting %s" [ArgDuration 1000000000];
     ServerClose (server sample_svr);
     Logf {| entry_id := 2 |} WarnLevel
          (Some (OpError "close tcp: broken pipe"))
          "Error while shutting down" []].
Proof. reflexivity. Qed.

(** A user signal alone never wakes the watcher; a hang-up, to which it
    is not subscribed, ends the process under it. *)
Example watcher_parked :
  fst (listenForShutdownSignal sample_env (sample_state [SIGUSR1; SIGUSR1]))
  = Blocks.
Proof. reflexivity. Qed.

Example watcher_hangup :
  fst (listenForShutdownSignal sample_env
         (sample_state [SIGUSR1; SIGHUP; SIGTERM]))
  = Exits SIGHUP.
Proof. reflexivity. Qed.

(** Two watchers parked on one coordinator both wake on one termination
    signal, each on its own copy, and both shut the server down. *)
Example two_parked_watchers :
  filter (fun e => (is_ChanRecv e || is_ServerShutdown e)%bool)
    (trace (drive sample_env
              [CallListen; CallListen; ParkWatcher; ParkWatcher;
               WakeWatcher 1; WakeWatcher 0; WakeWatcher 0]
              (with_incoming [SIGUSR1; SIGTERM] bound_state)))
  = [ChanRecv SIGTERM;
     ServerShutdown (server sample_svr) {| deadline := 60000009000 |};
     ChanRecv SIGTERM;
     ServerShutdown (server sample_svr) {| deadline := 60000014000 |}].
Proof. reflexivity. Qed.

Lemma count_app (p : event -> bool) (t u : list event) :
  count p (t ++ u) = (count p t + count p u)%nat.
Proof. unfold count. now rewrite filter_app, length_app. Qed.

Lemma trim_prefix_app (p s : string) :
  trim_prefix p (p ++ s)%string = Some s.
Proof.
  induction p as [|a p IH]; simpl; [reflexivity|].
  now rewrite Ascii.eqb_refl.
Qed.

Lemma Bind_run (env : Env) (addr : string) (st : State) :
  Bind env addr st =
  match listen_answer env st addr with
  | inr err =>
      (Returns (Some err),
       {| svr := svr st; trace := trace st ++ [NetListen "tcp" addr];
          notify := notify st; incoming := incoming st |})
  | inl l =>
      (Returns None,
       {| svr := {| server := server (svr st); listener := Some l;
                    log := log (svr st);
                    URL := ("http://" ++ Addr_String l)%string;
                    ShutdownTimeout := ShutdownTimeout (svr st) |};
          trace := trace st ++ [NetListen "tcp" addr];
          notify := notify st; incoming := incoming st |})
  end.
Proof.
  unfold listen_answer. exec.
  now destruct (net_Listen env _ "tcp" addr).
Qed.

Lemma Close_run (env : Env) (st : State) :
  Close env st =
  (Returns (shutdown_answer env st),
   {| svr := svr st; trace := trace st ++ Close_events env st;
      notify := notify st; incoming := incoming st |}).
Proof.
  unfold shutdown_answer, Close_events, Close_ctx, Close_log. exec.
  norm. reflexivity.
Qed.

Lemma Listen_run (env : Env) (st : State) :
  Listen env st =
  (server_Serve env
     (trace st ++ [Go_listenForShutdownSignal;
                   ServerServe (server (svr st)) (listener (svr st))])
     (server (svr st)) (listener (svr st)),
   {| svr := svr st;
      trace := trace st ++
               [Go_listenForShutdownSignal;
                ServerServe (server (svr st)) (listener (svr st))];
      notify := notify st; incoming := incoming st |}).
Proof. exec. norm. reflexivity. Qed.

(** ** Bind *)

(** C5.  When [net.Listen] fails, [Bind] returns its error and the
    coordinator is as it was before the call: no field is written, the
    URL and the listener in particular. *)
Theorem Bind_failure_leaves_coordinator
    (env : Env) (addr : string) (st : State) (err : error) :
  listen_answer env st addr = inr err ->
  exists st',
    Bind env addr st = (Returns (Some err), st') /\
    svr st' = svr st /\
    URL (svr st') = URL (svr st) /\
    listener (svr st') = listener (svr st).
Proof.
  intros H. rewrite Bind_run, H.
  eexists; split; [reflexivity|]. cbn. auto.
Qed.

Lemma Bind_failure_leaves_coordinator_witness :
  listen_answer sample_env (sample_state []) "10.0.0.1:80" =
    inr (OpError "listen tcp: bind: address already in use") /\
  exists st',
    Bind sample_env "10.0.0.1:80" (sample_state []) =
      (Returns (Some (OpError "listen tcp: bind: address already in use")),
       st') /\
    svr st' = svr (sample_state []) /\
    URL (svr st') = URL (svr (sample_state [])) /\
    listener (svr st') = listener (svr (sample_state [])).
Proof.
  split; [reflexivity|].
  apply (Bind_failure_leaves_coordinator sample_env "10.0.0.1:80"
           (sample_state [])).
  reflexivity.
Defined.

(** C6.  When [net.Listen] succeeds with listener [l], [Bind] returns nil,
    stores [l] and sets [URL] to ["http://"] followed by the resolved
    local address of [l]; the network address of that URL is the address
    the listener is bound to. *)
Theorem Bind_success_records_listener_and_URL
    (env : Env) (addr : string) (st : State) (l : Listener) :
  listen_answer env st addr = inl l ->
  exists st',
    Bind env addr st = (Returns None, st') /\
    listener (svr st') = Some l /\
    URL (svr st') = ("http://" ++ Addr_String l)%string /\
    URL_address (URL (svr st')) = Some (Addr_String l).
Proof.
  intros H. rewrite Bind_run, H.
  eexists; split; [reflexivity|]. cbn [svr listener URL].
  split; [reflexivity|]. split; [reflexivity|].
  apply (trim_prefix_app "http://").
Qed.

Lemma Bind_success_records_listener_and_URL_witness :
  listen_answer sample_env (sample_state []) "127.0.0.1:0" =
    inl sample_listener /\
  exists st',
    Bind sample_env "127.0.0.1:0" (sample_state []) = (Returns None, st') /\
    listener (svr st') = Some sample_listener /\
    URL (svr st') = "http://127.0.0.1:49152" /\
    URL_address (URL (svr st')) = Some "127.0.0.1:49152".
Proof.
  split; [reflexivity|].
  apply (Bind_success_records_listener_and_URL sample_env "127.0.0.1:0"
           (sample_state []) sample_listener).
  reflexivity.
Defined.

(** C9.  [Bind] has no guard against binding twice: on a coordinator that
    holds listener [l0], a call whose [net.Listen] succeeds with [l1]
    returns nil and overwrites the listener and the URL; the only call it
    makes to the outside is [net.Listen], so [l0] is dropped, not closed.
    [ListenAndServe] is the method that checks: in the same state it
    refuses. *)
Theorem Bind_rebinds_without_guard
    (env : Env) (addr : string) (st : State) (l0 l1 : Listener) :
  listener (svr st) = Some l0 ->
  listen_answer env st addr = inl l1 ->
  exists st',
    Bind env addr st = (Returns None, st') /\
    listener (svr st') = Some l1 /\
    URL (svr st') = ("http://" ++ Addr_String l1)%string /\
    trace st' = trace st ++ [NetListen "tcp" addr] /\
    ListenAndServe env addr st = (Returns (Some AlreadyBoundError), st).
Proof.
  intros H0 H1. rewrite Bind_run, H1.
  eexists; split; [reflexivity|]. cbn [svr listener URL trace].
  repeat split.
  unfold ListenAndServe, mbind, get_svr. now rewrite H0.
Qed.

Lemma Bind_rebinds_without_guard_witness :
  listener (svr bound_state) = Some sample_listener /\
  listen_answer sample_env bound_state "127.0.0.1:0" =
    inl {| lis_fd := 4; Addr_String := "127.0.0.1:49152" |} /\
  exists st',
    Bind sample_env "127.0.0.1:0" bound_state = (Returns None, st') /\
    listener (svr st') =
      Some {| lis_fd := 4; Addr_String := "127.0.0.1:49152" |} /\
    URL (svr st') = "http://127.0.0.1:49152" /\
    trace st' = trace bound_state ++ [NetListen "tcp" "127.0.0.1:0"] /\
    ListenAndServe sample_env "127.0.0.1:0" bound_state =
      (Returns (Some AlreadyBoundError), bound_state).
Proof.
  split; [reflexivity|]. split; [reflexivity|].
  apply (Bind_rebinds_without_guard sample_env "127.0.0.1:0" bound_state
           sample_listener); reflexivity.
Defined.

(** ** Close *)

(** C10.  [Close] writes no field of the coordinator: whatever it
    returns, the listener, the URL, the timeout and the logging sink (and
    the server handle) are after the call what they were before. *)
Theorem Close_preserves_fields (env : Env) (st : State) :
  exists r st',
    Close env st = (Returns r, st') /\
    svr st' = svr st /\
    listener (svr st') = listener (svr st) /\
    URL (svr st') = URL (svr st) /\
    ShutdownTimeout (svr st') = ShutdownTimeout (svr st) /\
    log (svr st') = log (svr st).
Proof.
  rewrite Close_run. do 2 eexists. split; [reflexivity|].
  cbn [svr]. repeat split.
Qed.

(** C4.  In a world whose server shuts down as the specification says,
    the result of [Close] is what [Shutdown] answers, unchanged, and
    exactly one of three.  It is the
    [DeadlineExceeded] sentinel when, and only when, work in flight is
    still outstanding at the deadline, which is the instant of the call
    plus [ShutdownTimeout]; it is nil when, and only when, the drain is
    complete before that deadline and the transport reports no error;
    and otherwise it is the error of the transport, passed through as it
    is. *)
Theorem Close_result_of_drain
    (env : Env) (drain : list event -> http_Server -> Drain) (st : State) :
  obeys_Shutdown_spec env drain ->
  exists r st',
    Close env st = (Returns r, st') /\
    r = shutdown_answer env st /\
    (r = Some DeadlineExceeded <->
     outstanding (Close_drain env drain st)
                 (time_Now env (trace st) + ShutdownTimeout (svr st))
     = true) /\
    (r = None <->
     outstanding (Close_drain env drain st)
                 (time_Now env (trace st) + ShutdownTimeout (svr st))
     = false /\
     transport (Close_drain env drain st) = None) /\
    (forall e, e <> DeadlineExceeded ->
       (r = Some e <->
        outstanding (Close_drain env drain st)
                    (time_Now env (trace st) + ShutdownTimeout (svr st))
        = false /\
        exists msg,
          transport (Close_drain env drain st) = Some msg /\
          e = OpError msg)).
Proof.
  intros Hspec.
  assert (Hr : shutdown_answer env st =
               Shutdown_spec (Close_drain env drain st) (Close_ctx env st))
    by apply Hspec.
  rewrite Close_run. exists (shutdown_answer env st). eexists.
  split; [reflexivity|]. split; [reflexivity|].
  rewrite Hr. unfold Shutdown_spec.
  cbn [Close_ctx deadline].
  destruct (outstanding (Close_drain env drain st)
              (time_Now env (trace st) + ShutdownTimeout (svr st))).
  - split; [split; reflexivity|].
    split; [split; [discriminate | intros [H _]; discriminate H]|].
    intros e He. split; [|intros [H _]; discriminate H].
    intros H. injection H as <-. now contradiction He.
  - destruct (transport (Close_drain env drain st)) as [msg|].
    + split; [split; discriminate|].
      split; [split; [discriminate | intros [_ H]; discriminate H]|].
      intros e He. split.
      * intros H. injection H as <-. split; [reflexivity|]. eauto.
      * intros [_ [m [Hm ->]]]. congruence.
    + split; [split; discriminate|].
      split; [split; auto|].
      intros e He. split; [discriminate|].
      intros [_ [m [Hm _]]]. discriminate Hm.
Qed.

Lemma Close_result_of_drain_witness :
  exists r st',
    Close sample_env hasty_state = (Returns r, st') /\
    r = shutdown_answer sample_env hasty_state /\
    (r = Some DeadlineExceeded <->
     outstanding (Close_drain sample_env sample_drain hasty_state)
                 (time_Now sample_env (trace hasty_state) +
                  ShutdownTimeout (svr hasty_state))
     = true) /\
    (r = None <->
     outstanding (Close_drain sample_env sample_drain hasty_state)
                 (time_Now sample_env (trace hasty_state) +
                  ShutdownTimeout (svr hasty_state))
     = false /\
     transport (Close_drain sample_env sample_drain hasty_state) = None) /\
    (forall e, e <> DeadlineExceeded ->
       (r = Some e <->
        outstanding (Close_drain sample_env sample_drain hasty_state)
                    (time_Now sample_env (trace hasty_state) +
                     ShutdownTimeout (svr hasty_state))
        = false /\
        exists msg,
          transport (Close_drain sample_env sample_drain hasty_state)
          = Some msg /\
          e = OpError msg)).
Proof.
  apply (Close_result_of_drain sample_env sample_drain hasty_state).
  intros h s ctx. reflexivity.
Defined.

(** ** Construction *)

(** C8.  A new coordinator has the 60-second default as its timeout and
    no listener, whatever the handler and the sink (the timeout is read
    from the package variable, which holds 60 seconds once the package is
    initialised).  The timeout is a field a caller may assign; the value
    it holds when [Close] is called is the one the deadline is computed
    from. *)
Theorem NewGracefulServer_defaults (handler : Handler) (lg : LogEntry) :
  ShutdownTimeout (NewGracefulServer pkg_init handler lg) = 60 * 1000000000 /\
  ShutdownTimeout (NewGracefulServer pkg_init handler lg) = 60 * Second /\
  listener (NewGracefulServer pkg_init handler lg) = None /\
  (forall pkg : Package,
     ShutdownTimeout (NewGracefulServer pkg handler lg) =
       DefaultShutdownTimeout pkg /\
     listener (NewGracefulServer pkg handler lg) = None) /\
  forall (env : Env) (d : Duration) (st : State),
    ShutdownTimeout (svr (with_timeout d st)) = d /\
    exists r st',
      Close env (with_timeout d st) = (Returns r, st') /\
      trace st' =
        trace st ++
        [Logf (log (svr st)) InfoLevel None
              "Triggering shutdown, in at most %s " [ArgDuration d];
         ServerShutdown (server (svr st))
                        {| deadline := time_Now env (trace st) + d |};
         ContextCancel {| deadline := time_Now env (trace st) + d |}].
Proof.
  split; [reflexivity|]. split; [reflexivity|]. split; [reflexivity|].
  split; [intros pkg; split; reflexivity|].
  intros env d st. split; [reflexivity|].
  rewrite Close_run. do 2 eexists. split; reflexivity.
Qed.

(** ** Listen and ListenAndServe *)

(** C3.  On a coordinator that holds a listener, [ListenAndServe] returns
    the already-bound error at once: the coordinator is not written and no
    call is made to the outside, so the listener is not touched.  On a
    coordinator without listener it returns the error of [Bind] when
    [Bind] fails, and otherwise whatever [Listen] does after [Bind]. *)
Theorem ListenAndServe_guards_double_bind
    (env : Env) (addr : string) (st : State) :
  (forall l, listener (svr st) = Some l ->
     ListenAndServe env addr st = (Returns (Some AlreadyBoundError), st)) /\
  (listener (svr st) = None ->
     forall st1,
       (forall e, Bind env addr st = (Returns (Some e), st1) ->
          ListenAndServe env addr st = (Returns (Some e), st1)) /\
       (Bind env addr st = (Returns None, st1) ->
          ListenAndServe env addr st = Listen env st1)).
Proof.
  split.
  - intros l H. unfold ListenAndServe, mbind, get_svr. now rewrite H.
  - intros H st1.
    cbv [ListenAndServe mbind get_svr ret]. rewrite H.
    split; [intros e HB | intros HB]; now rewrite HB.
Qed.

Lemma ListenAndServe_guards_double_bind_witness :
  (listener (svr bound_state) = Some sample_listener /\
   ListenAndServe sample_env "127.0.0.1:0" bound_state =
     (Returns (Some AlreadyBoundError), bound_state)) /\
  (listener (svr (sample_state [])) = None /\
   Bind sample_env "127.0.0.1:0" (sample_state []) =
     (Returns None, bound_state) /\
   ListenAndServe sample_env "127.0.0.1:0" (sample_state []) =
     Listen sample_env bound_state).
Proof.
  split.
  - split; [reflexivity|].
    apply (proj1 (ListenAndServe_guards_double_bind
                    sample_env "127.0.0.1:0" bound_state) sample_listener).
    reflexivity.
  - split; [reflexivity|]. split; [reflexivity|].
    apply (proj2 (ListenAndServe_guards_double_bind
                    sample_env "127.0.0.1:0" (sample_state []))
             eq_refl bound_state).
    reflexivity.
Defined.

(** C2, as the code has it.  [Listen] checks nothing: on every
    coordinator, bound or not, it starts the watcher and calls the
    server's [Serve] with the listener field as it is (nil when [Bind]
    has not succeeded); what [Listen] does is what that call does. *)
Theorem Listen_serves_listener_as_it_is (env : Env) (st : State) :
  exists st',
    Listen env st =
      (server_Serve env (trace st') (server (svr st)) (listener (svr st)),
       st') /\
    svr st' = svr st /\
    trace st' =
      trace st ++
      [Go_listenForShutdownSignal;
       ServerServe (server (svr st)) (listener (svr st))].
Proof.
  rewrite Listen_run.
  exists {| svr := svr st;
            trace := trace st ++
                     [Go_listenForShutdownSignal;
                      ServerServe (server (svr st)) (listener (svr st))];
            notify := notify st; incoming := incoming st |}.
  repeat split.
Qed.

(** C2, as the specification has it, fails: on a coordinator that was
    never bound [Listen] enters [Serve] with a nil listener, and returns
    no error of its own (here [Serve] panics). *)
Lemma Listen_unbound_enters_Serve :
  listener (svr (sample_state [])) = None /\
  Listen sample_env (sample_state []) =
    (Panics "invalid memory address or nil pointer dereference",
     {| svr := sample_svr;
        trace := [Go_listenForShutdownSignal;
                  ServerServe (server sample_svr) None];
        notify := []; incoming := [] |}) /\
  count is_ServerServe (trace (snd (Listen sample_env (sample_state []))))
    = 1%nat /\
  ~ (exists e, fst (Listen sample_env (sample_state [])) = Returns (Some e)).
Proof.
  split; [reflexivity|]. split; [reflexivity|]. split; [reflexivity|].
  intros [e H]. discriminate H.
Qed.

(** ** The signal-watch task *)

Lemma relayed_watched (s : Signal) :
  relayed watched s = true <-> s = SIGINT \/ s = SIGTERM.
Proof.
  destruct s; cbn; split; intros H; auto; try discriminate H;
    destruct H as [H|H]; discriminate H.
Qed.

(** *** Channels *)

Lemma update_chan_last (f : Channel -> Channel) (chans : list Channel)
    (ch : Channel) :
  update_chan (length chans) f (chans ++ [ch]) = chans ++ [f ch].
Proof.
  induction chans as [|x chans IH]; cbn; [reflexivity|]. now rewrite IH.
Qed.

Lemma nth_error_last (chans : list Channel) (ch : Channel) :
  nth_error (chans ++ [ch]) (length chans) = Some ch.
Proof.
  induction chans as [|x chans IH]; cbn; [reflexivity | exact IH].
Qed.

Lemma watcher_chans_eq (st : State) :
  watcher_chans st =
  notify st ++ [{| chan_cap := 1; chan_subs := watched; chan_buf := [];
                   chan_parked := false |}].
Proof. unfold watcher_chans. now rewrite update_chan_last. Qed.

Lemma watcher_chans_waits (st : State) :
  waits_on (length (notify st)) (watcher_chans st).
Proof.
  exists false. rewrite watcher_chans_eq. apply nth_error_last.
Qed.

Lemma waits_take (c : nat) (chans : list Channel) :
  waits_on c chans -> take c chans = None.
Proof. intros [p H]. unfold take. now rewrite H. Qed.

Lemma waits_subscribed (c : nat) (chans : list Channel) (s : Signal) :
  waits_on c chans -> relayed watched s = true -> subscribed chans s = true.
Proof.
  intros [p H] Hs. unfold subscribed. apply existsb_exists.
  eexists. split; [exact (nth_error_In _ _ H) | exact Hs].
Qed.

Lemma waits_relay_other (c : nat) (chans : list Channel) (s : Signal) :
  waits_on c chans -> relayed watched s = false ->
  waits_on c (relay s chans).
Proof.
  intros [p H] Hs. exists p. unfold relay.
  rewrite nth_error_map, H. cbn [option_map]. unfold offer.
  cbn [chan_subs]. now rewrite Hs.
Qed.

Lemma waits_relay_take (c : nat) (chans : list Channel) (s : Signal) :
  waits_on c chans -> relayed watched s = true ->
  exists chans', take c (relay s chans) = Some (s, chans').
Proof.
  intros [p H] Hs. unfold take, relay.
  rewrite nth_error_map, H. cbn [option_map]. unfold offer.
  cbn [chan_subs chan_buf chan_cap length]. rewrite Hs.
  cbn. eexists. reflexivity.
Qed.

Lemma await_take (c : nat) (chans chans' : list Channel)
    (inc : list Signal) (s : Signal) :
  take c chans = Some (s, chans') ->
  await c chans inc = Received s chans' inc.
Proof. intros H. destruct inc; cbn [await]; now rewrite H. Qed.

Lemma await_cons (c : nat) (chans : list Channel) (s : Signal)
    (rest : list Signal) :
  take c chans = None ->
  await c chans (s :: rest) =
  if subscribed chans s then await c (relay s chans) rest
  else if ends_process s then ProcessEnds s chans rest
  else await c chans rest.
Proof. intros H. cbn [await]. now rewrite H. Qed.

Lemma await_nil (c : nat) (chans : list Channel) :
  take c chans = None -> await c chans [] = NeverComes chans.
Proof. intros H. cbn [await]. now rewrite H. Qed.

(** A watcher that waits on its channel receives the first signal it is
    subscribed to, if the process lives to see it. *)
Lemma await_next_relayed (c : nat) (chans : list Channel)
    (inc rest : list Signal) (sig : Signal) :
  waits_on c chans ->
  next_relayed watched inc = Some (sig, rest) ->
  exists chans', await c chans inc = Received sig chans' rest.
Proof.
  revert chans. induction inc as [|x inc IH]; intros chans Hw;
    cbn [next_relayed]; [discriminate|].
  rewrite (await_cons _ _ _ _ (waits_take _ _ Hw)).
  destruct (relayed watched x) eqn:Hx.
  - intros H. injection H as -> ->.
    rewrite (waits_subscribed _ _ _ Hw Hx).
    destruct (waits_relay_take _ _ _ Hw Hx) as [chans' Ht].
    exists chans'. now apply await_take.
  - destruct (ends_process x) eqn:He; [discriminate|]. intros H.
    destruct (subscribed chans x).
    + apply IH; [|exact H]. now apply waits_relay_other.
    + now apply IH.
Qed.

(** What it lives to see, in terms of the signals sent: the one it
    receives is the first it is subscribed to, the one that ends the
    process is one it is not subscribed to, and when none comes it was
    sent none it is subscribed to. *)
Lemma await_waits (c : nat) (chans : list Channel) (inc : list Signal) :
  waits_on c chans ->
  match await c chans inc with
  | Received sig _ rest =>
      relayed watched sig = true /\
      exists skipped,
        inc = skipped ++ sig :: rest /\
        Forall (fun x => relayed watched x = false) skipped
  | ProcessEnds s _ rest =>
      relayed watched s = false /\
      exists skipped,
        inc = skipped ++ s :: rest /\
        Forall (fun x => relayed watched x = false) skipped
  | NeverComes _ => Forall (fun x => relayed watched x = false) inc
  end.
Proof.
  revert chans. induction inc as [|x inc IH]; intros chans Hw.
  - rewrite (await_nil _ _ (waits_take _ _ Hw)). constructor.
  - rewrite (await_cons _ _ _ _ (waits_take _ _ Hw)).
    destruct (relayed watched x) eqn:Hx.
    + rewrite (waits_subscribed _ _ _ Hw Hx).
      destruct (waits_relay_take _ _ _ Hw Hx) as [chans' Ht].
      rewrite (await_take _ _ _ _ _ Ht).
      split; [exact Hx|]. exists []. split; [reflexivity | constructor].
    + assert (Hstep : forall chans', waits_on c chans' ->
                match await c chans' inc with
                | Received sig _ rest =>
                    relayed watched sig = true /\
                    exists skipped,
                      x :: inc = skipped ++ sig :: rest /\
                      Forall (fun y => relayed watched y = false) skipped
                | ProcessEnds s _ rest =>
                    relayed watched s = false /\
                    exists skipped,
                      x :: inc = skipped ++ s :: rest /\
                      Forall (fun y => relayed watched y = false) skipped
                | NeverComes _ =>
                    Forall (fun y => relayed watched y = false) (x :: inc)
                end).
      { intros chans' Hw'. specialize (IH chans' Hw').
        destruct (await c chans' inc) as [sig ch rest|s ch rest|ch].
        - destruct IH as [Hs [sk [-> Hsk]]]. split; [exact Hs|].
          exists (x :: sk). split; [reflexivity | now constructor].
        - destruct IH as [Hs [sk [-> Hsk]]]. split; [exact Hs|].
          exists (x :: sk). split; [reflexivity | now constructor].
        - now constructor. }
      destruct (subscribed chans x).
      * apply Hstep. now apply waits_relay_other.
      * destruct (ends_process x).
        -- split; [exact Hx|]. exists [].
           split; [reflexivity | constructor].
        -- now apply Hstep.
Qed.

(** *** The two halves of the watcher *)

Lemma parks_run (st : State) :
  watcher_parks st =
  (Returns (length (notify st)),
   {| svr := svr st; trace := trace st ++ [SignalNotify watched];
      notify := update_chan (length (notify st)) (set_parked true)
                            (watcher_chans st);
      incoming := incoming st |}).
Proof. reflexivity. Qed.

Lemma wakes_run (env : Env) (c : nat) (st : State) :
  watcher_wakes env c st =
  match await c (notify st) (incoming st) with
  | Received sig chans rest =>
      (Returns tt,
       {| svr := svr st;
          trace := trace (resumed st sig chans rest) ++
                   shutdown_events env (resumed st sig chans rest);
          notify := chans; incoming := rest |})
  | ProcessEnds s chans rest =>
      (Exits s,
       {| svr := svr st; trace := trace st;
          notify := chans; incoming := rest |})
  | NeverComes chans =>
      (Blocks,
       {| svr := svr st; trace := trace st;
          notify := chans; incoming := [] |})
  end.
Proof.
  unfold watcher_wakes. unfold mbind at 1, chan_recv.
  destruct (await c (notify st) (incoming st)) as [sig chans rest| |];
    [|reflexivity ..].
  unfold mbind at 1, get_svr. unfold mbind at 1, Infof, emit.
  cbn [svr trace notify incoming].
  unfold mbind at 1. rewrite Close_run.
  match goal with
  | |- context [shutdown_answer env ?s] =>
      replace s with (resumed st sig chans rest)
        by (unfold resumed; norm; reflexivity)
  end.
  unfold shutdown_events, after_Close.
  destruct (shutdown_answer env (resumed st sig chans rest))
    as [e|] eqn:Hr.
  - destruct e; cbn [is_DeadlineExceeded]; exec;
      unfold resumed, Forcing_log, Error_log; settle.
    match goal with
    | |- context [server_Close env ?h ?v] =>
        destruct (server_Close env h v)
    end; settle.
  - cbn [is_DeadlineExceeded]. exec. now rewrite app_nil_r.
Qed.

Lemma watcher_halves (env : Env) (st : State) :
  listenForShutdownSignal env st =
  watcher_wakes env (length (notify st)) (subscribed_state st).
Proof. reflexivity. Qed.

Lemma watcher_run (env : Env) (st : State) (sig : Signal)
    (rest : list Signal) :
  next_relayed watched (incoming st) = Some (sig, rest) ->
  listenForShutdownSignal env st =
  (Returns tt,
   {| svr := svr st;
      trace := trace (at_Close st sig rest) ++
               Close_events env (at_Close st sig rest) ++
               after_Close env (svr st)
                 (trace (at_Close st sig rest) ++
                  Close_events env (at_Close st sig rest))
                 (shutdown_answer env (at_Close st sig rest));
      notify := notify (at_Close st sig rest); incoming := rest |}).
Proof.
  intros H. rewrite watcher_halves, wakes_run.
  cbn [subscribed_state notify incoming svr].
  destruct (await_next_relayed _ _ _ _ _ (watcher_chans_waits st) H)
    as [chans Ha].
  rewrite Ha.
  assert (E : resumed (subscribed_state st) sig chans rest =
              at_Close st sig rest).
  { unfold resumed, at_Close, subscribed_state. cbn [svr trace].
    rewrite Ha. cbn [arrival_chans]. now rewrite <- app_assoc. }
  rewrite E. unfold shutdown_events. cbn [at_Close svr notify].
  rewrite Ha. reflexivity.
Qed.

Lemma watcher_trace (env : Env) (st : State) (sig : Signal)
    (rest : list Signal) :
  trace (at_Close st sig rest) ++
  Close_events env (at_Close st sig rest) ++
  after_Close env (svr st)
    (trace (at_Close st sig rest) ++ Close_events env (at_Close st sig rest))
    (shutdown_answer env (at_Close st sig rest)) =
  trace st ++ watcher_events env st sig rest.
Proof.
  unfold watcher_events. cbn [at_Close trace]. now rewrite <- app_assoc.
Qed.

Lemma after_Close_cases (env : Env) (g : GracefulServer) (h : list event)
    (r : option error) :
  (r = Some DeadlineExceeded /\
   exists more,
     after_Close env g h r =
       Forcing_log g r :: ServerClose (server g) :: more /\
     (more = [] \/ exists e, more = [Error_log g (Some e)]))
  \/ (r = None /\ after_Close env g h r = [])
  \/ (exists e, r = Some e /\ e <> DeadlineExceeded /\
                after_Close env g h r = [Error_log g (Some e)]).
Proof.
  unfold after_Close. destruct r as [e|]; [|auto].
  destruct e; cbn [is_DeadlineExceeded];
    [left | right; right ..];
    try (eexists; split; [reflexivity|]; split; [discriminate|reflexivity]).
  split; [reflexivity|].
  destruct (server_Close env _ (server g)) as [e|]; eexists;
    (split; [reflexivity|]); eauto.
Qed.

(** C1.  A run of the watcher that receives a signal calls [Close], once.
    It performs the hard close of the server exactly when [Close]
    returned the [DeadlineExceeded] sentinel.  When [Close] returned any
    other error, all it does afterwards is log that error as a warning.
    After a hard close, the error of the hard close (if any) is logged
    as a warning and nothing more is done. *)
Theorem watcher_escalates_iff_DeadlineExceeded
    (env : Env) (st : State) (sig : Signal) (rest : list Signal) :
  next_relayed watched (incoming st) = Some (sig, rest) ->
  exists r st2 st3 added tail,
    Close env (at_Close st sig rest) = (Returns r, st2) /\
    listenForShutdownSignal env st = (Returns tt, st3) /\
    trace st3 = trace st ++ added /\
    trace st3 = trace st2 ++ tail /\
    count is_ServerShutdown added = 1%nat /\
    (escalated added = true <-> r = Some DeadlineExceeded) /\
    (forall e, r = Some e -> e <> DeadlineExceeded ->
       tail = [Error_log (svr st) (Some e)] /\ escalated added = false) /\
    (r = None -> tail = [] /\ escalated added = false) /\
    (r = Some DeadlineExceeded ->
       exists more,
         tail = Forcing_log (svr st) r :: ServerClose (server (svr st))
                  :: more /\
         (more = [] \/ exists e, more = [Error_log (svr st) (Some e)])).
Proof.
  intros H. rewrite (watcher_run env st sig rest H), Close_run.
  set (st1 := at_Close st sig rest).
  set (h := trace st1 ++ Close_events env st1).
  set (r := shutdown_answer env st1).
  exists r. do 2 eexists.
  exists (watcher_events env st sig rest), (after_Close env (svr st) h r).
  split; [reflexivity|]. split; [reflexivity|]. cbn [trace].
  split; [apply watcher_trace|].
  split; [unfold h; now rewrite app_assoc|].
  unfold watcher_events. fold st1 h r.
  destruct (after_Close_cases env (svr st) h r)
    as [[Hr [more [Ht Hm]]] | [[Hr Ht] | [e [Hr [Hne Ht]]]]];
    rewrite Ht, Hr; unfold Close_events, Close_log.
  - assert (Hc : count is_ServerShutdown more = 0%nat /\
                 escalated more = false)
      by (destruct Hm as [-> | [e ->]]; split; reflexivity).
    destruct Hc as [Hc He].
    split.
    { unfold count in *. cbn. now rewrite Hc. }
    split; [split; reflexivity|].
    split; [intros e He'; congruence|].
    split; [discriminate|].
    intros _. exists more. rewrite <- Hr. auto.
  - split; [reflexivity|].
    split; [split; discriminate|].
    split; [discriminate|].
    split; [auto|discriminate].
  - split; [reflexivity|].
    split; [split; [discriminate | congruence]|].
    split; [intros e' He'; injection He' as <-; auto|].
    split; [discriminate|].
    intros He'. congruence.
Qed.

Lemma watcher_escalates_iff_DeadlineExceeded_witness :
  next_relayed watched (incoming hasty_state) = Some (SIGTERM, [SIGINT]) /\
  exists r st2 st3 added tail,
    Close sample_env (at_Close hasty_state SIGTERM [SIGINT]) = (Returns r, st2) /\
    listenForShutdownSignal sample_env hasty_state = (Returns tt, st3) /\
    trace st3 = trace hasty_state ++ added /\
    trace st3 = trace st2 ++ tail /\
    count is_ServerShutdown added = 1%nat /\
    (escalated added = true <-> r = Some DeadlineExceeded) /\
    (forall e, r = Some e -> e <> DeadlineExceeded ->
       tail = [Error_log (svr hasty_state) (Some e)] /\ escalated added = false) /\
    (r = None -> tail = [] /\ escalated added = false) /\
    (r = Some DeadlineExceeded ->
       exists more,
         tail = Forcing_log (svr hasty_state) r :: ServerClose (server (svr hasty_state))
                  :: more /\
         (more = [] \/ exists e, more = [Error_log (svr hasty_state) (Some e)])).
Proof.
  split; [reflexivity|].
  apply (watcher_escalates_iff_DeadlineExceeded sample_env hasty_state SIGTERM [SIGINT]).
  reflexivity.
Defined.

Lemma not_relayed_watched (s : Signal) :
  relayed watched s = false -> s <> SIGINT /\ s <> SIGTERM.
Proof.
  destruct s; cbn; intros H; try discriminate H; split; discriminate.
Qed.

Lemma shutdown_events_counts (env : Env) (st : State) :
  count is_ChanRecv (shutdown_events env st) = 0%nat /\
  count is_ServerShutdown (shutdown_events env st) = 1%nat /\
  (count is_ServerClose (shutdown_events env st) <= 1)%nat /\
  count is_Go (shutdown_events env st) = 0%nat /\
  count is_ServerServe (shutdown_events env st) = 0%nat /\
  count serves_nil (shutdown_events env st) = 0%nat.
Proof.
  unfold shutdown_events.
  destruct (after_Close_cases env (svr st)
              (trace st ++ Close_events env st) (shutdown_answer env st))
    as [[_ [more [-> Hm]]] | [[_ ->] | [e [_ [_ ->]]]]];
    [destruct Hm as [-> | [e ->]] | ..]; cbn; repeat split; lia.
Qed.

(** C7, as the code has it.  Each run of the watcher consumes at most one
    signal.  It parks until the first interrupt or termination signal
    its channel is handed (the signals before it are neither); with that
    signal it runs one shutdown sequence (one receive, one call of
    [Shutdown]) and returns: nothing loops and nothing is subscribed
    again, so every later signal is left to come and is never serviced
    by this run.  When a signal it is not subscribed to ends the process
    first, or when no interrupt or termination comes, it has received
    nothing and shut nothing down. *)
Theorem watcher_consumes_one_signal (env : Env) (st : State) :
  exists st',
    (listenForShutdownSignal env st = (Returns tt, st') /\
     exists sig rest added skipped,
       trace st' = trace st ++ added /\
       count is_ChanRecv added = 1%nat /\
       In (ChanRecv sig) added /\
       count is_ServerShutdown added = 1%nat /\
       (sig = SIGINT \/ sig = SIGTERM) /\
       incoming st = skipped ++ sig :: rest /\
       Forall (fun s => s <> SIGINT /\ s <> SIGTERM) skipped /\
       incoming st' = rest)
    \/ (exists s,
          listenForShutdownSignal env st = (Exits s, st') /\
          trace st' = trace st ++ [SignalNotify watched] /\
          s <> SIGINT /\ s <> SIGTERM)
    \/ (listenForShutdownSignal env st = (Blocks, st') /\
        trace st' = trace st ++ [SignalNotify watched] /\
        Forall (fun s => s <> SIGINT /\ s <> SIGTERM) (incoming st)).
Proof.
  rewrite watcher_halves, wakes_run.
  cbn [subscribed_state notify incoming svr trace].
  pose proof (await_waits _ _ (incoming st) (watcher_chans_waits st)) as Hw.
  destruct (await (length (notify st)) (watcher_chans st) (incoming st))
    as [sig chans rest | s chans rest | chans].
  - destruct Hw as [Hsig [skipped [Hinc Hsk]]].
    destruct (shutdown_events_counts env
                (resumed (subscribed_state st) sig chans rest))
      as [Hrecv [Hshut _]].
    eexists. left. split; [reflexivity|].
    exists sig, rest,
      ([SignalNotify watched; ChanRecv sig;
        Logf (log (svr st)) InfoLevel None
             "Triggering shutdown from signal %s" [ArgSignal sig]] ++
       shutdown_events env (resumed (subscribed_state st) sig chans rest)),
      skipped.
    cbn [trace incoming resumed subscribed_state svr].
    split; [now rewrite <- !app_assoc|].
    split; [rewrite count_app, Hrecv; reflexivity|].
    split; [cbn; auto|].
    split; [rewrite count_app, Hshut; reflexivity|].
    split; [now apply relayed_watched|].
    split; [exact Hinc|]. split; [|reflexivity].
    eapply Forall_impl; [|exact Hsk]. apply not_relayed_watched.
  - destruct Hw as [Hs _].
    eexists. right. left. exists s. split; [reflexivity|].
    cbn [trace]. split; [reflexivity|]. now apply not_relayed_watched.
  - eexists. right. right. split; [reflexivity|].
    cbn [trace]. split; [reflexivity|].
    eapply Forall_impl; [|exact Hw]. apply not_relayed_watched.
Qed.

(** C7, as the specification has it, fails: nothing keeps a coordinator
    to one watcher.  On one coordinator whose server was started through
    [ListenAndServe] and, after the first shutdown, through [Listen]
    again, two watchers are started; the first services the termination
    signal and the second the interrupt that follows, so a second signal
    is serviced and the server is shut down twice. *)
Lemma second_signal_serviced :
  filter is_ChanRecv
    (trace (drive sample_env
              [CallListenAndServe "127.0.0.1:0"; RunWatcher;
               CallListen; RunWatcher]
              (fresh_state pkg_init {| handler_id := 1 |}
                           {| entry_id := 2 |} [SIGTERM; SIGINT])))
  = [ChanRecv SIGTERM; ChanRecv SIGINT] /\
  count is_Go
    (trace (drive sample_env
              [CallListenAndServe "127.0.0.1:0"; RunWatcher;
               CallListen; RunWatcher]
              (fresh_state pkg_init {| handler_id := 1 |}
                           {| entry_id := 2 |} [SIGTERM; SIGINT])))
  = 2%nat /\
  count is_ServerShutdown
    (trace (drive sample_env
              [CallListenAndServe "127.0.0.1:0"; RunWatcher;
               CallListen; RunWatcher]
              (fresh_state pkg_init {| handler_id := 1 |}
                           {| entry_id := 2 |} [SIGTERM; SIGINT])))
  = 2%nat.
Proof. repeat split. Qed.

(** *** What a watcher adds to the history *)

Lemma wakes_effect (env : Env) (c : nat) (st : State) :
  exists added,
    svr (snd (watcher_wakes env c st)) = svr st /\
    trace (snd (watcher_wakes env c st)) = trace st ++ added /\
    (count is_ServerClose added <= count is_ServerShutdown added)%nat /\
    count is_Go added = 0%nat /\
    count is_ServerServe added = 0%nat /\
    count serves_nil added = 0%nat.
Proof.
  rewrite wakes_run.
  destruct (await c (notify st) (incoming st)) as [sig chans rest| |].
  - destruct (shutdown_events_counts env (resumed st sig chans rest))
      as [_ [Hss [Hsc [Hgo [Hsv Hnil]]]]].
    exists ([ChanRecv sig;
             Logf (log (svr st)) InfoLevel None
                  "Triggering shutdown from signal %s" [ArgSignal sig]] ++
            shutdown_events env (resumed st sig chans rest)).
    cbn [snd svr trace resumed]. split; [reflexivity|].
    split; [now rewrite <- app_assoc|].
    rewrite !count_app, Hss, Hgo, Hsv, Hnil.
    set (n := count is_ServerClose (shutdown_events env _)) in *.
    clearbody n. cbn. repeat split; lia.
  - exists []. cbn. rewrite app_nil_r. repeat split; lia.
  - exists []. cbn. rewrite app_nil_r. repeat split; lia.
Qed.

Lemma watcher_effect (env : Env) (st : State) :
  exists added,
    svr (snd (listenForShutdownSignal env st)) = svr st /\
    trace (snd (listenForShutdownSignal env st)) = trace st ++ added /\
    (count is_ServerClose added <= count is_ServerShutdown added)%nat /\
    count is_Go added = 0%nat /\
    count is_ServerServe added = 0%nat /\
    count serves_nil added = 0%nat.
Proof.
  rewrite watcher_halves.
  destruct (wakes_effect env (length (notify st)) (subscribed_state st))
    as [added [Hs [Ht [Hc [Hgo [Hsv Hnil]]]]]].
  exists (SignalNotify watched :: added).
  rewrite Hs, Ht. cbn [subscribed_state svr trace].
  split; [reflexivity|]. split; [now rewrite <- app_assoc|].
  change (SignalNotify watched :: added)
    with ([SignalNotify watched] ++ added).
  rewrite !count_app, Hgo, Hsv, Hnil.
  set (n := count is_ServerClose added) in *.
  set (m := count is_ServerShutdown added) in *.
  clearbody n m. cbn. repeat split; lia.
Qed.

(** ** ListenAndServe, end to end *)

Lemma ListenAndServe_unbound_run (env : Env) (addr : string) (st : State) :
  listener (svr st) = None ->
  ListenAndServe env addr st =
  match listen_answer env st addr with
  | inr err =>
      (Returns (Some err),
       {| svr := svr st; trace := trace st ++ [NetListen "tcp" addr];
          notify := notify st; incoming := incoming st |})
  | inl l => Listen env (after_Bind st addr l)
  end.
Proof.
  intros H. cbv [ListenAndServe mbind get_svr ret]. rewrite H, Bind_run.
  now destruct (listen_answer env st addr).
Qed.

Lemma ListenAndServe_bound_run (env : Env) (addr : string) (st : State)
    (l : Listener) :
  listener (svr st) = Some l ->
  ListenAndServe env addr st = (Returns (Some AlreadyBoundError), st).
Proof.
  intros H. cbv [ListenAndServe mbind get_svr ret]. now rewrite H.
Qed.

Lemma ListenAndServe_success_run (env : Env) (addr : string) (st : State)
    (l : Listener) :
  listener (svr st) = None ->
  listen_answer env st addr = inl l ->
  ListenAndServe env addr st =
  (server_Serve env
     (trace st ++ [NetListen "tcp" addr; Go_listenForShutdownSignal;
                   ServerServe (server (svr st)) (Some l)])
     (server (svr st)) (Some l),
   {| svr := svr (after_Bind st addr l);
      trace := trace st ++
               [NetListen "tcp" addr; Go_listenForShutdownSignal;
                ServerServe (server (svr st)) (Some l)];
      notify := notify st; incoming := incoming st |}).
Proof.
  intros Hl Ha.
  rewrite (ListenAndServe_unbound_run env addr st Hl), Ha, Listen_run.
  cbn [after_Bind svr trace server listener notify incoming].
  rewrite <- app_assoc. reflexivity.
Qed.

(** X1.  When the bind inside [ListenAndServe] fails, the error of
    [net.Listen] is returned, the coordinator is not written, and neither
    the watcher is started nor [Serve] called: the failed [net.Listen] is
    the only thing that happened. *)
Theorem ListenAndServe_bind_failure
    (env : Env) (addr : string) (st : State) (err : error) :
  listener (svr st) = None ->
  listen_answer env st addr = inr err ->
  exists st',
    ListenAndServe env addr st = (Returns (Some err), st') /\
    svr st' = svr st /\
    trace st' = trace st ++ [NetListen "tcp" addr].
Proof.
  intros Hl Ha. rewrite (ListenAndServe_unbound_run env addr st Hl), Ha.
  eexists. split; [reflexivity|]. split; reflexivity.
Qed.

Lemma ListenAndServe_bind_failure_witness :
  exists st',
    ListenAndServe sample_env "10.0.0.1:80" (sample_state []) =
      (Returns (Some (OpError "listen tcp: bind: address already in use")),
       st') /\
    svr st' = svr (sample_state []) /\
    trace st' = trace (sample_state []) ++ [NetListen "tcp" "10.0.0.1:80"].
Proof.
  apply (ListenAndServe_bind_failure sample_env "10.0.0.1:80"
           (sample_state [])); reflexivity.
Defined.

(** X2.  When the bind inside [ListenAndServe] succeeds with listener
    [l], the coordinator holds [l] and its URL, one watcher is started,
    [Serve] is called on [l] and on no other listener, and
    [ListenAndServe] ends as that call ends. *)
Theorem ListenAndServe_serves_bound_listener
    (env : Env) (addr : string) (st : State) (l : Listener) :
  listener (svr st) = None ->
  listen_answer env st addr = inl l ->
  exists st',
    ListenAndServe env addr st =
      (server_Serve env (trace st') (server (svr st)) (Some l), st') /\
    listener (svr st') = Some l /\
    URL (svr st') = ("http://" ++ Addr_String l)%string /\
    trace st' =
      trace st ++
      [NetListen "tcp" addr; Go_listenForShutdownSignal;
       ServerServe (server (svr st)) (Some l)].
Proof.
  intros Hl Ha. rewrite (ListenAndServe_success_run env addr st l Hl Ha).
  eexists (mkState _ _ _ _). split; [reflexivity|]. cbn [after_Bind svr listener URL trace].
  repeat split.
Qed.

Lemma ListenAndServe_serves_bound_listener_witness :
  exists st',
    ListenAndServe sample_env "127.0.0.1:0" (sample_state []) =
      (server_Serve sample_env (trace st') (server (svr (sample_state [])))
                    (Some sample_listener), st') /\
    listener (svr st') = Some sample_listener /\
    URL (svr st') = "http://127.0.0.1:49152" /\
    trace st' =
      trace (sample_state []) ++
      [NetListen "tcp" "127.0.0.1:0"; Go_listenForShutdownSignal;
       ServerServe (server (svr (sample_state []))) (Some sample_listener)].
Proof.
  apply (ListenAndServe_serves_bound_listener sample_env "127.0.0.1:0"
           (sample_state []) sample_listener); reflexivity.
Defined.

(** X3.  Once a bind has succeeded, [ListenAndServe] is refused, whatever
    the address: after a successful [Bind] (callers are to go on with
    [Listen]), and after a [ListenAndServe] that got as far as [Serve],
    however [Serve] ended.  The refused call changes nothing. *)
Theorem ListenAndServe_refused_after_bind
    (env : Env) (addr addr' : string) (st : State) (l : Listener) :
  listen_answer env st addr = inl l ->
  ListenAndServe env addr' (snd (Bind env addr st)) =
    (Returns (Some AlreadyBoundError), snd (Bind env addr st)) /\
  (listener (svr st) = None ->
   ListenAndServe env addr' (snd (ListenAndServe env addr st)) =
     (Returns (Some AlreadyBoundError), snd (ListenAndServe env addr st))).
Proof.
  intros Ha. split.
  - rewrite Bind_run, Ha. cbn [snd].
    now apply (ListenAndServe_bound_run env addr' _ l).
  - intros Hl.
    rewrite (ListenAndServe_unbound_run env addr st Hl), Ha, Listen_run.
    cbn [snd]. now apply (ListenAndServe_bound_run env addr' _ l).
Qed.

Lemma ListenAndServe_refused_after_bind_witness :
  ListenAndServe sample_env "10.0.0.1:80"
    (snd (Bind sample_env "127.0.0.1:0" (sample_state []))) =
    (Returns (Some AlreadyBoundError),
     snd (Bind sample_env "127.0.0.1:0" (sample_state []))) /\
  ListenAndServe sample_env "10.0.0.1:80"
    (snd (ListenAndServe sample_env "127.0.0.1:0" (sample_state []))) =
    (Returns (Some AlreadyBoundError),
     snd (ListenAndServe sample_env "127.0.0.1:0" (sample_state []))).
Proof.
  destruct (ListenAndServe_refused_after_bind sample_env "127.0.0.1:0"
              "10.0.0.1:80" (sample_state []) sample_listener eq_refl)
    as [H1 H2].
  split; [exact H1 | exact (H2 eq_refl)].
Defined.

(** X4.  A [ListenAndServe] whose bind failed does not lock the
    coordinator: it is still without listener, and a later
    [ListenAndServe] whose [net.Listen] succeeds binds and serves. *)
Theorem ListenAndServe_retry_after_failure
    (env : Env) (addr addr' : string) (st : State) (err : error)
    (l : Listener) :
  listener (svr st) = None ->
  listen_answer env st addr = inr err ->
  listen_answer env (snd (ListenAndServe env addr st)) addr' = inl l ->
  listener (svr (snd (ListenAndServe env addr st))) = None /\
  exists st',
    ListenAndServe env addr' (snd (ListenAndServe env addr st)) =
      (server_Serve env (trace st') (server (svr st)) (Some l), st') /\
    listener (svr st') = Some l /\
    trace st' =
      trace st ++
      [NetListen "tcp" addr; NetListen "tcp" addr';
       Go_listenForShutdownSignal; ServerServe (server (svr st)) (Some l)].
Proof.
  intros Hl Ha.
  rewrite (ListenAndServe_unbound_run env addr st Hl), Ha. cbn [snd].
  set (st1 := {| svr := svr st; trace := trace st ++ [NetListen "tcp" addr];
                 notify := notify st; incoming := incoming st |}).
  intros Ha'. split; [exact Hl|].
  rewrite (ListenAndServe_success_run env addr' st1 l Hl Ha').
  unfold st1. cbn [after_Bind svr trace server notify incoming].
  rewrite <- app_assoc. cbn [app].
  eexists (mkState _ _ _ _). split; [reflexivity|]. cbn [svr listener trace].
  split; reflexivity.
Qed.

Lemma ListenAndServe_retry_after_failure_witness :
  listener (svr (snd (ListenAndServe sample_env "10.0.0.1:80"
                        (sample_state [])))) = None /\
  exists st',
    ListenAndServe sample_env "127.0.0.1:0"
      (snd (ListenAndServe sample_env "10.0.0.1:80" (sample_state []))) =
      (server_Serve sample_env (trace st')
         (server (svr (sample_state [])))
         (Some {| lis_fd := 4; Addr_String := "127.0.0.1:49152" |}), st') /\
    listener (svr st') =
      Some {| lis_fd := 4; Addr_String := "127.0.0.1:49152" |} /\
    trace st' =
      trace (sample_state []) ++
      [NetListen "tcp" "10.0.0.1:80"; NetListen "tcp" "127.0.0.1:0";
       Go_listenForShutdownSignal;
       ServerServe (server (svr (sample_state [])))
         (Some {| lis_fd := 4; Addr_String := "127.0.0.1:49152" |})].
Proof.
  apply (ListenAndServe_retry_after_failure sample_env "10.0.0.1:80"
           "127.0.0.1:0" (sample_state [])
           (OpError "listen tcp: bind: address already in use"));
    reflexivity.
Defined.

(** ** What each call does to the coordinator *)

Lemma Bind_svr (env : Env) (addr : string) (st : State) :
  svr (snd (Bind env addr st)) =
  match listen_answer env st addr with
  | inl l => svr (after_Bind st addr l)
  | inr _ => svr st
  end.
Proof.
  rewrite Bind_run. now destruct (listen_answer env st addr).
Qed.

Lemma Listen_svr (env : Env) (st : State) :
  svr (snd (Listen env st)) = svr st.
Proof. now rewrite Listen_run. Qed.

Lemma Close_svr (env : Env) (st : State) :
  svr (snd (Close env st)) = svr st.
Proof. now rewrite Close_run. Qed.

Lemma watcher_svr (env : Env) (st : State) :
  svr (snd (listenForShutdownSignal env st)) = svr st.
Proof.
  destruct (watcher_effect env st) as [added [H _]]. exact H.
Qed.

Lemma wakes_svr (env : Env) (c : nat) (st : State) :
  svr (snd (watcher_wakes env c st)) = svr st.
Proof.
  destruct (wakes_effect env c st) as [added [H _]]. exact H.
Qed.

Lemma ListenAndServe_svr (env : Env) (addr : string) (st : State) :
  svr (snd (ListenAndServe env addr st)) =
  match listener (svr st) with
  | Some _ => svr st
  | None =>
      match listen_answer env st addr with
      | inl l => svr (after_Bind st addr l)
      | inr _ => svr st
      end
  end.
Proof.
  destruct (listener (svr st)) as [l0|] eqn:Hl.
  - now rewrite (ListenAndServe_bound_run env addr st l0 Hl).
  - rewrite (ListenAndServe_unbound_run env addr st Hl).
    destruct (listen_answer env st addr); [|reflexivity].
    now rewrite Listen_svr.
Qed.

(** A call either leaves the coordinator alone, or binds it, or is the
    assignment of the timeout. *)
Lemma step_svr (env : Env) (c : call) (st : State) :
  svr (step env c st) = svr st
  \/ (exists addr l,
        svr (step env c st) = svr (after_Bind st addr l) /\
        (c = CallBind addr \/
         (c = CallListenAndServe addr /\ listener (svr st) = None)))
  \/ (exists d,
        c = AssignShutdownTimeout d /\
        svr (step env c st) =
          {| server := server (svr st); listener := listener (svr st);
             log := log (svr st); URL := URL (svr st);
             ShutdownTimeout := d |}).
Proof.
  destruct c as [addr| |addr| | |d| |c]; cbn [step].
  - rewrite Bind_svr. destruct (listen_answer env st addr) as [l|e];
      [right; left; exists addr, l | left]; auto.
  - left. apply Listen_svr.
  - rewrite ListenAndServe_svr.
    destruct (listener (svr st)) eqn:Hl; [left; reflexivity|].
    destruct (listen_answer env st addr) as [l|e];
      [right; left; exists addr, l | left]; auto.
  - left. apply Close_svr.
  - left. apply watcher_svr.
  - right. right. exists d. split; reflexivity.
  - left. reflexivity.
  - left. destruct (parked_on c (notify st)); [apply wakes_svr|reflexivity].
Qed.

(** ** Invariants of the coordinator *)

Lemma step_URL_matches_listener (env : Env) (c : call) (st : State) :
  URL_matches_listener (svr st) ->
  URL_matches_listener (svr (step env c st)).
Proof.
  intros H.
  destruct (step_svr env c st) as [E | [[addr [l [E _]]] | [d [_ E]]]];
    rewrite E; [exact H | reflexivity | exact H].
Qed.

(** X5.  From construction on, whatever is called and however the calls
    end, the URL of the coordinator is empty as long as it holds no
    listener and is ["http://"] followed by the address of the listener
    it holds otherwise: the two fields are never out of step. *)
Theorem URL_always_matches_listener
    (env : Env) (pkg : Package) (handler : Handler) (lg : LogEntry)
    (sigs : list Signal) (cs : list call) :
  URL_matches_listener (svr (drive env cs (fresh_state pkg handler lg sigs))).
Proof.
  assert (G : forall st,
             URL_matches_listener (svr st) ->
             URL_matches_listener (svr (drive env cs st))).
  { induction cs as [|c cs IH]; intros st H; cbn [drive]; [exact H|].
    apply IH. now apply step_URL_matches_listener. }
  apply G. reflexivity.
Qed.

(** X6.  A listener, once held, is never given up: after any calls the
    coordinator still holds one.  Only a direct [Bind] replaces it: when
    [Bind] is not among the calls it is the same listener. *)
Theorem listener_stays_set
    (env : Env) (cs : list call) (st : State) (l : Listener) :
  listener (svr st) = Some l ->
  (exists l', listener (svr (drive env cs st)) = Some l') /\
  (existsb is_CallBind cs = false ->
   listener (svr (drive env cs st)) = Some l).
Proof.
  revert st l. induction cs as [|c cs IH]; intros st l H; cbn [drive].
  - split; eauto.
  - destruct (step_svr env c st)
      as [E | [[addr [l1 [E Hc]]] | [d [_ E]]]].
    + assert (H' : listener (svr (step env c st)) = Some l)
        by now rewrite E.
      destruct (IH _ _ H') as [H1 H2]. split; [exact H1|].
      cbn [existsb]. intros Hb. apply H2.
      now apply Bool.orb_false_elim in Hb.
    + assert (H' : listener (svr (step env c st)) = Some l1)
        by now rewrite E.
      destruct (IH _ _ H') as [H1 _]. split; [exact H1|].
      destruct Hc as [-> | [_ Hn]]; [discriminate | congruence].
    + assert (H' : listener (svr (step env c st)) = Some l)
        by now rewrite E.
      destruct (IH _ _ H') as [H1 H2]. split; [exact H1|].
      cbn [existsb]. intros Hb. apply H2.
      now apply Bool.orb_false_elim in Hb.
Qed.

Lemma listener_stays_set_witness :
  (exists l',
     listener (svr (drive sample_env
                      [CallClose; CallBind "10.0.0.1:80"; RunWatcher;
                       CallBind "127.0.0.1:0"; CallListen]
                      bound_state)) = Some l') /\
  listener (svr (drive sample_env
                   [CallClose; CallListenAndServe "127.0.0.1:0";
                    RunWatcher; AssignShutdownTimeout Second; CallListen]
                   bound_state)) = Some sample_listener.
Proof.
  split.
  - apply (listener_stays_set sample_env
             [CallClose; CallBind "10.0.0.1:80"; RunWatcher;
              CallBind "127.0.0.1:0"; CallListen]
             bound_state sample_listener).
    reflexivity.
  - apply (listener_stays_set sample_env
             [CallClose; CallListenAndServe "127.0.0.1:0";
              RunWatcher; AssignShutdownTimeout Second; CallListen]
             bound_state sample_listener); reflexivity.
Defined.

Lemma step_fields (env : Env) (c : call) (st : State) :
  server (svr (step env c st)) = server (svr st) /\
  log (svr (step env c st)) = log (svr st) /\
  ShutdownTimeout (svr (step env c st)) =
    match c with
    | AssignShutdownTimeout d => d
    | _ => ShutdownTimeout (svr st)
    end.
Proof.
  destruct c as [addr| |addr| | |d| |c]; cbn [step];
    try destruct (parked_on c (notify st));
    rewrite ?Bind_svr, ?Listen_svr, ?ListenAndServe_svr, ?Close_svr,
            ?watcher_svr, ?wakes_svr;
    try destruct (listener (svr st));
    try destruct (listen_answer env st addr);
    repeat split.
Qed.

(** X7.  No method writes the server handle, the logging sink or the
    timeout: after any calls the first two are those of the start, and
    the timeout is the last a caller assigned (the one of the start when
    none did). *)
Theorem methods_keep_server_log_timeout
    (env : Env) (cs : list call) (st : State) :
  server (svr (drive env cs st)) = server (svr st) /\
  log (svr (drive env cs st)) = log (svr st) /\
  ShutdownTimeout (svr (drive env cs st)) =
    assigned_timeout cs (ShutdownTimeout (svr st)).
Proof.
  revert st. induction cs as [|c cs IH]; intros st; cbn [drive].
  - repeat split.
  - destruct (IH (step env c st)) as [Hs [Hl Ht]].
    destruct (step_fields env c st) as [Hs' [Hl' Ht']].
    rewrite Hs, Hl, Ht, Hs', Hl', Ht'.
    unfold assigned_timeout. cbn [fold_left].
    destruct c; repeat split.
Qed.

(** ** Shutting down *)

(** X8.  [Close] called directly never performs the hard close, not even
    when the shutdown timed out: it calls [Shutdown] once, releases its
    context once, and leaves forcing to the caller. *)
Theorem Close_never_forces (env : Env) (st : State) :
  escalated (trace (snd (Close env st))) = escalated (trace st) /\
  count is_ServerClose (trace (snd (Close env st))) =
    count is_ServerClose (trace st) /\
  count is_ServerShutdown (trace (snd (Close env st))) =
    S (count is_ServerShutdown (trace st)) /\
  count is_ContextCancel (trace (snd (Close env st))) =
    S (count is_ContextCancel (trace st)).
Proof.
  rewrite Close_run. cbn [snd trace]. unfold escalated.
  rewrite existsb_app, !count_app. unfold Close_events, Close_log.
  cbn [existsb is_ServerClose is_ServerShutdown is_ContextCancel
       count filter length].
  rewrite Bool.orb_false_r. repeat split; lia.
Qed.

(** X10.  After a shutdown that timed out the watcher logs the forcing
    warning, closes the server hard and then reports the hard close, not
    the timeout: the warning "Error while shutting down" carries the
    error of the hard close, and is not logged when the hard close
    succeeded. *)
Theorem watcher_reports_hard_close
    (env : Env) (st : State) (sig : Signal) (rest : list Signal) :
  next_relayed watched (incoming st) = Some (sig, rest) ->
  shutdown_answer env (at_Close st sig rest) = Some DeadlineExceeded ->
  exists st',
    listenForShutdownSignal env st = (Returns tt, st') /\
    trace st' =
      hard_close_history env st sig rest ++
      match hard_close_answer env st sig rest with
      | Some e => [Error_log (svr st) (Some e)]
      | None => []
      end /\
    count is_Error_log (trace st') =
      (count is_Error_log (trace st) +
       match hard_close_answer env st sig rest with
       | Some _ => 1
       | None => 0
       end)%nat.
Proof.
  intros H Hr. rewrite (watcher_run env st sig rest H).
  eexists. split; [reflexivity|]. cbn [trace].
  unfold after_Close, hard_close_answer, hard_close_history.
  rewrite Hr. cbn [is_DeadlineExceeded].
  rewrite <- !app_assoc.
  match goal with
  | |- context [server_Close env ?h ?v] =>
      destruct (server_Close env h v) as [e|]
  end;
    (split;
     [ cbn [app]; reflexivity
     | cbn [at_Close trace]; rewrite !count_app;
       unfold Close_events, Close_log, Forcing_log, Error_log;
       cbn; lia ]).
Qed.

Lemma watcher_reports_hard_close_witness :
  exists st',
    listenForShutdownSignal sample_env hasty_state = (Returns tt, st') /\
    trace st' =
      hard_close_history sample_env hasty_state SIGTERM [SIGINT] ++
      match hard_close_answer sample_env hasty_state SIGTERM [SIGINT] with
      | Some e => [Error_log (svr hasty_state) (Some e)]
      | None => []
      end /\
    count is_Error_log (trace st') =
      (count is_Error_log (trace hasty_state) +
       match hard_close_answer sample_env hasty_state SIGTERM [SIGINT] with
       | Some _ => 1
       | None => 0
       end)%nat.
Proof.
  apply (watcher_reports_hard_close sample_env hasty_state SIGTERM [SIGINT]);
    reflexivity.
Defined.

(** ** What a history can look like *)

(** The events a call adds to the history: a hard close only together
    with a shutdown and only from the watcher; a watcher started only
    together with a call of [Serve], one at most, and only by [Listen] or
    by a [ListenAndServe] that found no listener. *)
Lemma step_trace (env : Env) (c : call) (st : State) :
  exists added,
    trace (step env c st) = trace st ++ added /\
    (count is_ServerClose added <= count is_ServerShutdown added)%nat /\
    (is_RunWatcher c = false -> count is_ServerClose added = 0%nat) /\
    count is_Go added = count is_ServerServe added /\
    (count is_Go added <= 1)%nat /\
    (count is_Go added <> 0%nat ->
     c = CallListen \/
     (listener (svr st) = None /\ listener (svr (step env c st)) <> None)).
Proof.
  destruct c as [addr| |addr| | |d| |c]; cbn [step].
  - rewrite Bind_run. destruct (listen_answer env st addr);
      eexists; (split; [reflexivity|]); cbn;
      repeat split; try lia; congruence.
  - rewrite Listen_run. eexists. split; [reflexivity|]. cbn.
    repeat split; try lia; auto.
  - destruct (listener (svr st)) as [l0|] eqn:Hl.
    + rewrite (ListenAndServe_bound_run env addr st l0 Hl).
      exists []. cbn. rewrite app_nil_r.
      repeat split; try lia; congruence.
    + destruct (listen_answer env st addr) as [l|e] eqn:Ha.
      * rewrite (ListenAndServe_success_run env addr st l Hl Ha).
        eexists. split; [reflexivity|]. cbn.
        repeat split; try lia. intros _. right. split; congruence.
      * rewrite (ListenAndServe_unbound_run env addr st Hl), Ha.
        eexists. split; [reflexivity|]. cbn.
        repeat split; try lia; congruence.
  - rewrite Close_run. eexists. split; [reflexivity|]. cbn.
    repeat split; try lia; congruence.
  - destruct (watcher_effect env st) as [added [_ [Ht [Hc [Hgo [Hsv _]]]]]].
    exists added. split; [exact Ht|]. rewrite Hgo, Hsv.
    repeat split; try lia; discriminate.
  - exists []. cbn. rewrite app_nil_r. repeat split; try lia; congruence.
  - exists [SignalNotify watched]. cbn.
    repeat split; try lia; congruence.
  - destruct (parked_on c (notify st)).
    + destruct (wakes_effect env c st)
        as [added [_ [Ht [Hc [Hgo [Hsv _]]]]]].
      exists added. split; [exact Ht|]. rewrite Hgo, Hsv.
      repeat split; try lia; discriminate.
    + exists []. rewrite app_nil_r. cbn.
      repeat split; try lia; congruence.
Qed.

Lemma drive_shutdown_counts (env : Env) (cs : list call) (st : State) :
  (count is_ServerClose (trace st) <= count is_ServerShutdown (trace st))%nat ->
  (count is_ServerClose (trace (drive env cs st)) <=
   count is_ServerShutdown (trace (drive env cs st)))%nat /\
  (existsb is_RunWatcher cs = false ->
   count is_ServerClose (trace (drive env cs st)) =
   count is_ServerClose (trace st)).
Proof.
  revert st. induction cs as [|c cs IH]; intros st H; cbn [drive existsb].
  - auto.
  - destruct (step_trace env c st) as [added [Et [Hle [Hw _]]]].
    assert (H' : (count is_ServerClose (trace (step env c st)) <=
                  count is_ServerShutdown (trace (step env c st)))%nat)
      by (rewrite Et, !count_app; lia).
    destruct (IH _ H') as [H1 H2]. split; [exact H1|].
    intros Hb. apply Bool.orb_false_elim in Hb. destruct Hb as [Hc Hcs].
    rewrite (H2 Hcs), Et, count_app, (Hw Hc). lia.
Qed.

(** X11.  In every history of a coordinator, each hard close of the
    server comes with a graceful shutdown that was tried first: there
    are never more hard closes than calls of [Shutdown], and none at all
    as long as no watcher has run. *)
Theorem hard_close_only_after_shutdown
    (env : Env) (pkg : Package) (handler : Handler) (lg : LogEntry)
    (sigs : list Signal) (cs : list call) :
  (count is_ServerClose
     (trace (drive env cs (fresh_state pkg handler lg sigs))) <=
   count is_ServerShutdown
     (trace (drive env cs (fresh_state pkg handler lg sigs))))%nat /\
  (existsb is_RunWatcher cs = false ->
   escalated (trace (drive env cs (fresh_state pkg handler lg sigs)))
   = false).
Proof.
  set (t := trace (drive env cs (fresh_state pkg handler lg sigs))).
  destruct (drive_shutdown_counts env cs (fresh_state pkg handler lg sigs))
    as [H1 H2]; [cbn; lia|].
  split; [exact H1|]. intros Hb. specialize (H2 Hb). fold t in H2.
  cbn in H2. unfold escalated, count in *.
  induction t as [|e t IH]; [reflexivity|].
  cbn [existsb filter] in *. destruct (is_ServerClose e); [discriminate|].
  now apply IH.
Qed.

Lemma hard_close_only_after_shutdown_witness :
  (count is_ServerClose
     (trace (drive sample_env
               [CallListenAndServe "127.0.0.1:0"; CallClose;
                AssignShutdownTimeout Second; CallClose]
               (fresh_state pkg_init {| handler_id := 1 |}
                            {| entry_id := 2 |} [SIGTERM]))) <=
   count is_ServerShutdown
     (trace (drive sample_env
               [CallListenAndServe "127.0.0.1:0"; CallClose;
                AssignShutdownTimeout Second; CallClose]
               (fresh_state pkg_init {| handler_id := 1 |}
                            {| entry_id := 2 |} [SIGTERM]))))%nat /\
  escalated
    (trace (drive sample_env
              [CallListenAndServe "127.0.0.1:0"; CallClose;
               AssignShutdownTimeout Second; CallClose]
              (fresh_state pkg_init {| handler_id := 1 |}
                           {| entry_id := 2 |} [SIGTERM]))) = false.
Proof.
  destruct (hard_close_only_after_shutdown sample_env pkg_init
              {| handler_id := 1 |} {| entry_id := 2 |} [SIGTERM]
              [CallListenAndServe "127.0.0.1:0"; CallClose;
               AssignShutdownTimeout Second; CallClose])
    as [H1 H2].
  split; [exact H1 | exact (H2 eq_refl)].
Defined.

Lemma step_listener_none (env : Env) (c : call) (st : State) :
  listener (svr (step env c st)) = None -> listener (svr st) = None.
Proof.
  destruct (step_svr env c st) as [E | [[addr [l [E _]]] | [d [_ E]]]];
    rewrite E; cbn [after_Bind svr listener]; auto; discriminate.
Qed.

Lemma drive_watchers (env : Env) (cs : list call) (st : State) :
  count is_Go (trace st) = count is_ServerServe (trace st) ->
  count is_Go (trace (drive env cs st)) =
  count is_ServerServe (trace (drive env cs st)).
Proof.
  revert st. induction cs as [|c cs IH]; intros st H; cbn [drive];
    [exact H|].
  apply IH. destruct (step_trace env c st) as [added [Et [_ [_ [Hg _]]]]].
  rewrite Et, !count_app. lia.
Qed.

Lemma drive_one_watcher (env : Env) (cs : list call) (st : State) :
  existsb is_CallListen cs = false ->
  (count is_Go (trace st) <= 1)%nat ->
  (listener (svr st) = None -> count is_Go (trace st) = 0%nat) ->
  (count is_Go (trace (drive env cs st)) <= 1)%nat.
Proof.
  revert st. induction cs as [|c cs IH]; intros st Hb H1 H0;
    cbn [drive existsb] in *; [exact H1|].
  apply Bool.orb_false_elim in Hb. destruct Hb as [Hc Hcs].
  destruct (step_trace env c st)
    as [added [Et [_ [_ [_ [Hle Hwho]]]]]].
  destruct (Nat.eq_dec (count is_Go added) 0) as [Hz|Hnz].
  - apply IH; [exact Hcs | rewrite Et, count_app; lia |].
    intros Hn. rewrite Et, count_app, Hz.
    rewrite (H0 (step_listener_none env c st Hn)). reflexivity.
  - destruct (Hwho Hnz) as [-> | [Hn Hs]]; [discriminate Hc|].
    apply IH; [exact Hcs | rewrite Et, count_app, (H0 Hn); lia |].
    intros Hn'. contradiction.
Qed.

(** X12.  In every history of a coordinator a watcher is started with
    every call of [Serve] and only then.  Through [ListenAndServe] at most
    one watcher is started in the life of a coordinator: more than one
    takes direct calls of [Listen]. *)
Theorem watcher_started_with_each_Serve
    (env : Env) (pkg : Package) (handler : Handler) (lg : LogEntry)
    (sigs : list Signal) (cs : list call) :
  count is_Go (trace (drive env cs (fresh_state pkg handler lg sigs))) =
  count is_ServerServe
    (trace (drive env cs (fresh_state pkg handler lg sigs))) /\
  (existsb is_CallListen cs = false ->
   (count is_Go (trace (drive env cs (fresh_state pkg handler lg sigs)))
    <= 1)%nat).
Proof.
  split.
  - apply drive_watchers. reflexivity.
  - intros Hb. apply drive_one_watcher; [exact Hb | cbn; lia | reflexivity].
Qed.

Lemma watcher_started_with_each_Serve_witness :
  count is_Go
    (trace (drive sample_env
              [CallListenAndServe "10.0.0.1:80";
               CallListenAndServe "127.0.0.1:0"; RunWatcher;
               CallListenAndServe "127.0.0.1:0"; CallBind "127.0.0.1:0";
               CallListenAndServe "127.0.0.1:0"]
              (fresh_state pkg_init {| handler_id := 1 |}
                           {| entry_id := 2 |} [SIGINT]))) =
  count is_ServerServe
    (trace (drive sample_env
              [CallListenAndServe "10.0.0.1:80";
               CallListenAndServe "127.0.0.1:0"; RunWatcher;
               CallListenAndServe "127.0.0.1:0"; CallBind "127.0.0.1:0";
               CallListenAndServe "127.0.0.1:0"]
              (fresh_state pkg_init {| handler_id := 1 |}
                           {| entry_id := 2 |} [SIGINT]))) /\
  (count is_Go
     (trace (drive sample_env
               [CallListenAndServe "10.0.0.1:80";
                CallListenAndServe "127.0.0.1:0"; RunWatcher;
                CallListenAndServe "127.0.0.1:0"; CallBind "127.0.0.1:0";
                CallListenAndServe "127.0.0.1:0"]
               (fresh_state pkg_init {| handler_id := 1 |}
                            {| entry_id := 2 |} [SIGINT]))) <= 1)%nat.
Proof.
  destruct (watcher_started_with_each_Serve sample_env pkg_init
              {| handler_id := 1 |} {| entry_id := 2 |} [SIGINT]
              [CallListenAndServe "10.0.0.1:80";
               CallListenAndServe "127.0.0.1:0"; RunWatcher;
               CallListenAndServe "127.0.0.1:0"; CallBind "127.0.0.1:0";
               CallListenAndServe "127.0.0.1:0"])
    as [H1 H2].
  split; [exact H1 | exact (H2 eq_refl)].
Defined.

Lemma listener_step_set (env : Env) (c : call) (st : State) (l : Listener) :
  listener (svr st) = Some l ->
  exists l', listener (svr (step env c st)) = Some l'.
Proof.
  intros H.
  destruct (step_svr env c st) as [E | [[addr [l1 [E _]]] | [d [_ E]]]];
    rewrite E; cbn [after_Bind svr listener]; eauto.
Qed.

Lemma step_serves_nil (env : Env) (c : call) (st : State) :
  is_CallListen c = false \/ listener (svr st) <> None ->
  count serves_nil (trace (step env c st)) = count serves_nil (trace st).
Proof.
  intros Hc.
  destruct c as [addr| |addr| | |d| |c]; cbn [step].
  - rewrite Bind_run. destruct (listen_answer env st addr);
      cbn [snd trace]; rewrite count_app; cbn; lia.
  - destruct Hc as [Hc|Hc]; [discriminate Hc|].
    rewrite Listen_run. cbn [snd trace]. rewrite count_app.
    destruct (listener (svr st)); [cbn; lia | congruence].
  - destruct (listener (svr st)) as [l0|] eqn:Hl.
    + now rewrite (ListenAndServe_bound_run env addr st l0 Hl).
    + destruct (listen_answer env st addr) as [l|e] eqn:Ha.
      * rewrite (ListenAndServe_success_run env addr st l Hl Ha).
        cbn [snd trace]. rewrite count_app. cbn. lia.
      * rewrite (ListenAndServe_unbound_run env addr st Hl), Ha.
        cbn [snd trace]. rewrite count_app. cbn. lia.
  - rewrite Close_run. cbn [snd trace]. rewrite count_app. cbn. lia.
  - destruct (watcher_effect env st) as [added [_ [Ht [_ [_ [_ Hn]]]]]].
    rewrite Ht, count_app, Hn. lia.
  - cbn. reflexivity.
  - cbn [snd trace watcher_parks]. rewrite parks_run. cbn [snd trace].
    rewrite count_app. cbn. lia.
  - destruct (parked_on c (notify st)); [|reflexivity].
    destruct (wakes_effect env c st) as [added [_ [Ht [_ [_ [_ Hn]]]]]].
    rewrite Ht, count_app, Hn. lia.
Qed.

(** X13.  [Serve] is handed the nil listener only by a direct [Listen] on
    a coordinator that holds no listener.  Calls that do not include
    [Listen] never do it, and once the coordinator holds a listener no call
    does, [Listen] included. *)
Theorem Serve_nil_only_from_unbound_Listen
    (env : Env) (cs : list call) (st : State) :
  (existsb is_CallListen cs = false ->
   count serves_nil (trace (drive env cs st)) =
   count serves_nil (trace st)) /\
  (forall l, listener (svr st) = Some l ->
   count serves_nil (trace (drive env cs st)) =
   count serves_nil (trace st)).
Proof.
  split.
  - revert st. induction cs as [|c cs IH]; intros st Hb;
      cbn [drive existsb] in *; [reflexivity|].
    apply Bool.orb_false_elim in Hb. destruct Hb as [Hc Hcs].
    rewrite (IH _ Hcs). apply step_serves_nil. now left.
  - revert st. induction cs as [|c cs IH]; intros st l Hl;
      cbn [drive]; [reflexivity|].
    destruct (listener_step_set env c st l Hl) as [l' Hl'].
    rewrite (IH _ l' Hl'). apply step_serves_nil. right. congruence.
Qed.

Lemma Serve_nil_only_from_unbound_Listen_witness :
  count serves_nil
    (trace (drive sample_env
              [CallListenAndServe "10.0.0.1:80"; CallClose; RunWatcher;
               CallListenAndServe "127.0.0.1:0"]
              (sample_state [SIGINT]))) =
    count serves_nil (trace (sample_state [SIGINT])) /\
  count serves_nil
    (trace (drive sample_env
              [CallListen; CallBind "10.0.0.1:80"; CallListen]
              bound_state)) =
    count serves_nil (trace bound_state).
Proof.
  split.
  - apply (proj1 (Serve_nil_only_from_unbound_Listen sample_env
                    [CallListenAndServe "10.0.0.1:80"; CallClose;
                     RunWatcher; CallListenAndServe "127.0.0.1:0"]
                    (sample_state [SIGINT]))).
    reflexivity.
  - apply (proj2 (Serve_nil_only_from_unbound_Listen sample_env
                    [CallListen; CallBind "10.0.0.1:80"; CallListen]
                    bound_state) sample_listener).
    reflexivity.
Defined.

End Graceful.
